(** * GraphQLLite: the request executor of src/index.ts

    A shallow embedding of the client class [GraphQLLite] (constructor,
    [request], [query], [mutation], [setHeader], [setHeaders]) and the
    properties of its request lifecycle.

    Conventions.
    - JavaScript objects used as string-keyed maps ([Record<string, string>])
      are [gmap string string]; the object spread [{...a, ...b}] is the
      union in which [b] wins, written [b ∪ a] (stdpp's union is left-biased).
    - An optional property of an interface is a [field]: the key can be
      missing, or present and holding [undefined], or present with a value.
      The spread copies present keys, also those holding [undefined].
    - The methods run in a small monad threading the receiver ([this]),
      the thrown value of a rejected promise, and the trace of the calls
      made to the platform ([setTimeout], [fetch], [response.json()],
      [clearTimeout]).
    - The platform ([fetch], [JSON.stringify], [setTimeout]) is not code of
      the repository: the methods are defined over any [Platform]. The
      transport describes the two promises of an exchange, the one of
      [fetch] and the one of the body read, by when and how each settles
      and by what it does when its signal is aborted; the platform says
      when a timer asked for a delay fires. *)

From Stdlib Require Import ZArith.
From stdpp Require Import base option list strings gmap pretty.

Local Open Scope Z_scope.

(** ** JavaScript values *)

(** The values the client passes through without looking inside: operation
    variables, data payloads, extension mappings. These are the values
    [JSON.stringify] accepts, and [undefined]: trees without cycles, with
    integers for numbers ([NaN], fractions and [BigInt] are left out). An
    object keeps its keys in insertion order. *)
#[warnings="-register-all"]
Inductive value : Type :=
  | VUndefined
  | VNull
  | VBool (b : bool)
  | VNumber (n : Z)
  | VString (s : string)
  | VArray (items : list value)
  | VObject (props : list (string * value)).

(** [ToBoolean] on these values: what [v || d] and [v ? a : b] test. *)
Definition truthy (v : value) : bool :=
  match v with
  | VUndefined | VNull => false
  | VBool b => b
  | VNumber n => negb (n =? 0)
  | VString s => negb (String.eqb s "")
  | VArray _ | VObject _ => true
  end.

(** [v || d] *)
Definition or_else (v d : value) : value := if truthy v then v else d.

(** ** Thrown values *)

(** An [Error] instance ([Error], [TypeError], [DOMException], ...): its
    [name] tells the kind, its [message] the text. *)
Module JsError.
Record t : Type := make { name : string; message : string }.

(** [new Error(msg)] *)
Definition new (msg : string) : t := {| name := "Error"; message := msg |}.
End JsError.

(** JavaScript can throw any value; [instanceof Error] separates the two
    constructors. *)
Inductive thrown : Type :=
  | ThrownError (e : JsError.t)
  | ThrownOther (v : value).

(** How a promise settles. *)
Inductive settled (A : Type) : Type :=
  | Fulfilled (a : A)
  | Rejected (e : thrown).
Arguments Fulfilled {A} a.
Arguments Rejected {A} e.

(** ** Optional properties and the object spread *)

Inductive field (A : Type) : Type :=
  | Missing                 (* the object has no such key *)
  | Undefined               (* the key is there and holds [undefined] *)
  | Is (a : A).
Arguments Missing {A}.
Arguments Undefined {A}.
Arguments Is {A} a.

(** [o.key]: [undefined] unless the key holds a value. *)
Definition read {A} (f : field A) : option A :=
  match f with Is a => Some a | Missing | Undefined => None end.

(** One key of [{...base, ...over}]: the later object wins whenever it has
    the key. *)
Definition spread {A} (base over : field A) : field A :=
  match over with Missing => base | Undefined | Is _ => over end.

Abbreviation Headers := (gmap string string).

(** [{...h}] for a header mapping that may be [undefined]: spreading
    [undefined] adds nothing. *)
Definition own (h : option Headers) : Headers := default ∅ h.

(** ** The interfaces of src/index.ts *)

Record GraphQLError : Type := {
  message : string;
  locations : option (list (Z * Z));
  path : option (list string);
  extensions : option (list (string * value));
}.

(** A parsed response body. JSON has no [undefined]: [None] is a key that is
    missing or [null] for [errors], a missing key for [data]. *)
Record GraphQLResponse : Type := {
  data : option value;
  errors : option (list GraphQLError);
}.

(** The DOM's string enumerations for the transport options. *)
Inductive RequestCredentials : Type := omit | same_origin | include.
Inductive RequestMode : Type :=
  cors | navigate | no_cors | mode_same_origin.
Inductive RequestCache : Type :=
  cache_default | force_cache | no_cache | no_store | only_if_cached | reload.

(** [GraphQLRequestConfig], also read as [Partial<GraphQLRequestConfig>]:
    the constructor's argument is expected to have [url = Is u]. *)
Record GraphQLRequestConfig : Type := {
  url : field string;
  headers : field Headers;
  credentials : field RequestCredentials;
  mode : field RequestMode;
  cache : field RequestCache;
}.

(** [GraphQLClientOptions extends GraphQLRequestConfig] *)
Record GraphQLClientOptions : Type := {
  base :> GraphQLRequestConfig;
  defaultHeaders : field Headers;
  timeout : field Z;
}.

(** The class: one private member. *)
Record GraphQLLite : Type := { config : GraphQLClientOptions }.

(** ** The platform *)

(** The controller of one call together with the timer that is to abort it:
    [aborts_after = Some t] once [setTimeout(() => controller.abort(), ms)]
    has been run, [t] being the time, counted from the call, at which that
    timer fires; [None] for a controller nothing will abort. *)
Record AbortController : Type := { aborts_after : option Z }.

Definition new_AbortController : AbortController := {| aborts_after := None |}.

Module RequestInit.
(** The second argument of [fetch], as [request] fills it in. [signal] is
    the controller [controller.signal] belongs to. *)
Record t : Type := {
  method : string;
  headers : Headers;
  body : string;
  credentials : option RequestCredentials;
  mode : option RequestMode;
  cache : option RequestCache;
  signal : AbortController;
}.
End RequestInit.

(** A promise of the transport: how long it takes to settle if left alone,
    with what, and what it rejects with when its signal is aborted while it
    is pending ([None]: it ignores the signal). *)
Record pending (A : Type) : Type := {
  settle_after : Z;
  settle_with : settled A;
  on_abort : option thrown;
}.
Arguments settle_after {A} _.
Arguments settle_with {A} _.
Arguments on_abort {A} _.

Module Reply.
(** What the transport answers a call with: the status line and the read of
    the body that [response.json()] starts. *)
Record t : Type := {
  ok : bool;
  status : Z;
  body : pending GraphQLResponse;
}.
End Reply.

(** The promise of [fetch] for one call. *)
Abbreviation exchange := (pending Reply.t).

(** What [fetch] resolves with: the reply, tied to the signal of its call
    and to the time at which it came in. *)
Record Response : Type := {
  reply : Reply.t;
  signal : AbortController;
  received_after : Z;
}.

(** [response.ok], [response.status] *)
Definition ok (response : Response) : bool := Reply.ok (reply response).
Definition status (response : Response) : Z := Reply.status (reply response).

(** Whether the timer fires while the promise of [fetch] is pending. The
    timer is set before [fetch] is called, so of the two it comes first
    when both are due at the same time. *)
Definition fired (signal : AbortController) (x : exchange) : bool :=
  match aborts_after signal with
  | Some t => t <=? settle_after x
  | None => false
  end.

(** Whether the timer fires while the body is being read: not before the
    response came in, and no later than the read would end. *)
Definition cut_short (response : Response) : bool :=
  match aborts_after (signal response) with
  | Some t =>
      (received_after response <? t)
      && (t <=? received_after response
                + settle_after (Reply.body (reply response)))
  | None => false
  end.

(** How the promise of [response.json()] settles. *)
Definition json (response : Response) : settled GraphQLResponse :=
  let read := Reply.body (reply response) in
  if cut_short response then
    match on_abort read with
    | Some e => Rejected e
    | None => settle_with read
    end
  else settle_with read.

(** The platform a client runs on. None of it is code of the repository:
    [JSON_stringify] is [JSON.stringify] on the values above, [fetch] the
    global [fetch], giving the exchange a call gives rise to, and
    [timer_fires_after ms] the time after which a timer set with
    [setTimeout(f, ms)] fires (platforms differ on delays out of range). *)
Class Platform : Type := {
  JSON_stringify : value → string;
  fetch : option string → RequestInit.t → exchange;
  timer_fires_after : Z → Z;
}.

(** The calls made to the platform, in order. *)
Inductive event : Type :=
  | SetTimeout (ms : Z)               (* setTimeout(() => controller.abort(), ms) *)
  | Fetch (input : option string) (init : RequestInit.t)
  | Abort                             (* the timer fires: controller.abort() *)
  | Json                              (* response.json() *)
  | ClearTimeout.

(** ** Methods: receiver, outcome, trace *)

Record run (A : Type) : Type := Run {
  outcome : settled A;
  this_after : GraphQLLite;
  trace : list event;
}.
Arguments Run {A} _ _ _.
Arguments outcome {A} _.
Arguments this_after {A} _.
Arguments trace {A} _.

Definition method (A : Type) : Type := GraphQLLite → run A.

Definition ret {A} (a : A) : method A := λ this, Run (Fulfilled a) this [].

Definition throw {A} (e : thrown) : method A := λ this, Run (Rejected e) this [].

Definition bind {A B} (m : method A) (k : A → method B) : method B :=
  λ this,
    match m this with
    | Run (Fulfilled a) this' t =>
        match k a this' with
        | Run o this'' t' => Run o this'' (t ++ t')
        end
    | Run (Rejected e) this' t => Run (Rejected e) this' t
    end.

(** [try { m } catch (error) { h error }] *)
Definition try_catch {A} (m : method A) (h : thrown → method A) : method A :=
  λ this,
    match m this with
    | Run (Fulfilled a) this' t => Run (Fulfilled a) this' t
    | Run (Rejected e) this' t =>
        match h e this' with
        | Run o this'' t' => Run o this'' (t ++ t')
        end
    end.

(** [try { m } finally { f }]: [f] runs either way; the outcome of [m]
    stands unless [f] itself throws. *)
Definition try_finally {A} (m : method A) (f : method unit) : method A :=
  λ this,
    match m this with
    | Run o this' t =>
        match f this' with
        | Run (Fulfilled _) this'' t' => Run o this'' (t ++ t')
        | Run (Rejected e) this'' t' => Run (Rejected e) this'' (t ++ t')
        end
    end.

(** [this.config] *)
Definition get_config : method GraphQLClientOptions :=
  λ this, Run (Fulfilled (config this)) this [].

(** [this.config.defaultHeaders = h] *)
Definition set_defaultHeaders (h : Headers) : method unit :=
  λ this,
    Run (Fulfilled ())
        {| config := {| base := base (config this);
                        defaultHeaders := Is h;
                        timeout := timeout (config this) |} |}
        [].

Definition emit (e : event) : method unit := λ this, Run (Fulfilled ()) this [e].

(** [await p] for a promise whose settlement is known. *)
Definition await {A} (p : settled A) : method A :=
  match p with Fulfilled a => ret a | Rejected e => throw e end.

(** The methods form a monad; stdpp's [x ← m; k] and [m;; k] sequence them
    the way consecutive [await]ed statements are. *)
Global Instance method_ret : MRet method := @ret.
Global Instance method_bind : MBind method := λ A B k m, bind m k.

(** ** The client *)

(** [{ ...clientConfig, ...requestConfig }]: key by key the per-call object
    wins where it has the key. [requestConfig] is declared
    [Partial<GraphQLRequestConfig>], which an object of a wider type also
    satisfies, one of type [GraphQLClientOptions] included; the spread
    copies every key it finds, and of those [request] reads the seven of
    [GraphQLClientOptions]. An omitted argument spreads nothing. *)
Definition spread_config (clientConfig : GraphQLClientOptions)
    (requestConfig : option GraphQLClientOptions) : GraphQLClientOptions :=
  match requestConfig with
  | None => clientConfig
  | Some rc =>
      {| base := {| url := spread (url clientConfig) (url rc);
                    headers := spread (headers clientConfig) (headers rc);
                    credentials := spread (credentials clientConfig) (credentials rc);
                    mode := spread (mode clientConfig) (mode rc);
                    cache := spread (cache clientConfig) (cache rc) |};
         defaultHeaders := spread (defaultHeaders clientConfig) (defaultHeaders rc);
         timeout := spread (timeout clientConfig) (timeout rc) |}
  end.

(** An override with the declared keys only. *)
Definition declared (requestConfig : GraphQLRequestConfig) : GraphQLClientOptions :=
  {| base := requestConfig; defaultHeaders := Missing; timeout := Missing |}.

(** The constructor: [{ ...options, defaultHeaders: { 'Content-Type':
    'application/json', ...options.defaultHeaders } }]. *)
Definition new_GraphQLLite (options : GraphQLClientOptions) : GraphQLLite :=
  {| config :=
       {| base := base options;
          defaultHeaders :=
            Is (own (read (defaultHeaders options))
                ∪ {["Content-Type" := "application/json"]});
          timeout := timeout options |} |}.

Definition createClient (options : GraphQLClientOptions) : GraphQLLite :=
  new_GraphQLLite options.

(** [{ ...this.config.defaultHeaders, [key]: value }] *)
Definition setHeader (key value : string) : method unit :=
  c ← get_config;
  set_defaultHeaders (<[key := value]> (own (read (defaultHeaders c)))).

(** [{ ...this.config.defaultHeaders, ...headers }] *)
Definition setHeaders (new_headers : Headers) : method unit :=
  c ← get_config;
  set_defaultHeaders (new_headers ∪ own (read (defaultHeaders c))).

(** The handle [setTimeout] returns; it is truthy. *)
Inductive timer : Type := Timer (ms : Z).

Definition clearTimeout (id : timer) : method unit := emit ClearTimeout.

(** [await response.json()]. The timer of [request] is cleared only in its
    [finally], so it is still set while the body is read. *)
Definition await_json (response : Response) : method GraphQLResponse :=
  emit Json;;
  (if cut_short response then emit Abort else mret ());;
  await (json response).

Section Platform.

Context {platform : Platform}.

(** [setTimeout(() => controller.abort(), ms)]: the handle, and the
    controller as the callback leaves it, due to be aborted when the timer
    fires. *)
Definition setTimeout_abort (controller : AbortController) (ms : Z)
    : method (option timer * AbortController) :=
  emit (SetTimeout ms);;
  mret (Some (Timer ms), {| aborts_after := Some (timer_fires_after ms) |}).

(** [await fetch(input, init)]: the reply of the exchange, unless the timer
    fires first and the transport rejects on the abort. *)
Definition await_fetch (input : option string) (init : RequestInit.t)
    : method Response :=
  emit (Fetch input init);;
  let x := fetch input init in
  let controller := RequestInit.signal init in
  answer ← (if fired controller x then
              emit Abort;;
              match on_abort x with
              | Some e => throw e
              | None => await (settle_with x)
              end
            else await (settle_with x));
  mret {| reply := answer; signal := controller;
          received_after := settle_after x |}.

(** [{ query, variables: variables || {} }] *)
Definition request_body (query : string) (variables : value) : value :=
  VObject [("query", VString query);
           ("variables", or_else variables (VObject []))].

Definition request (query : string) (variables : value)
    (requestConfig : option GraphQLClientOptions) : method GraphQLResponse :=
  this_config ← get_config;
  let config := spread_config this_config requestConfig in
  let controller := new_AbortController in
  armed ← match read (timeout config) with
          | Some ms =>
              if negb (ms =? 0) then setTimeout_abort controller ms
              else mret (None, controller)
          | None => mret (None, controller)
          end;
  let timeoutId := armed.1 in
  let controller := armed.2 in
  try_finally
    (try_catch
       (response ← await_fetch (read (url config))
          {| RequestInit.method := "POST";
             RequestInit.headers :=
               own (read (headers config)) ∪ own (read (defaultHeaders config));
             RequestInit.body := JSON_stringify (request_body query variables);
             RequestInit.credentials := read (credentials config);
             RequestInit.mode := read (mode config);
             RequestInit.cache := read (cache config);
             RequestInit.signal := controller |};
        if negb (ok response) then
          throw (ThrownError
                   (JsError.new ("HTTP error! status: " +:+ pretty (status response))))
        else
          result ← await_json response;
          mret result)
       (λ error,
          match error with
          | ThrownError e =>
              throw (ThrownError
                       (JsError.new ("GraphQL request failed: " +:+ JsError.message e)))
          | ThrownOther _ => throw error
          end))
    (match timeoutId with
     | Some id => clearTimeout id
     | None => mret ()
     end).

(** [response.errors] is tested for truthiness: any array passes, the
    empty one too. [Array.prototype.join] is [String.concat]. *)
Definition query (query_text : string) (variables : value)
    (requestConfig : option GraphQLClientOptions) : method (option value) :=
  response ← request query_text variables requestConfig;
  match errors response with
  | Some es =>
      throw (ThrownError (JsError.new (String.concat ", " (message <$> es))))
  | None => mret (data response)
  end.

Definition mutation (query_text : string) (variables : value)
    (requestConfig : option GraphQLClientOptions) : method (option value) :=
  query query_text variables requestConfig.

End Platform.

(** ** Reading a run *)

(** The [fetch] calls of a trace, in order. *)
Definition fetches (t : list event) : list (option string * RequestInit.t) :=
  omap (λ e, match e with Fetch input init => Some (input, init) | _ => None end) t.

(** The delays of the timers a trace starts. *)
Definition timeouts (t : list event) : list Z :=
  omap (λ e, match e with SetTimeout ms => Some ms | _ => None end) t.

(** A trace with exactly one [fetch], a POST carrying [body]. *)
Definition one_post (t : list event) (body : string) : Prop :=
  ∃ input init,
    fetches t = [(input, init)]
    ∧ RequestInit.method init = "POST"
    ∧ RequestInit.body init = body.

(** An omitted argument is [undefined]; a mapping is an object. *)
Definition variables_arg (v : option (list (string * value))) : value :=
  from_option VObject VUndefined v.

(** The delay [request] arms its controller with: a [timeout] that is
    truthy. *)
Definition countdown (c : GraphQLClientOptions) : option Z :=
  match read (timeout c) with
  | Some ms => if ms =? 0 then None else Some ms
  | None => None
  end.

Section Issued.

Context {platform : Platform}.

(** The header mapping of a call: [{ ...config.defaultHeaders,
    ...config.headers }] on the merged configuration. *)
Definition sent_headers (this : GraphQLLite)
    (requestConfig : option GraphQLClientOptions) : Headers :=
  let config := spread_config (config this) requestConfig in
  own (read (headers config)) ∪ own (read (defaultHeaders config)).

(** The arguments [request] hands to [fetch]. *)
Definition issued_input (this : GraphQLLite)
    (requestConfig : option GraphQLClientOptions) : option string :=
  read (url (spread_config (config this) requestConfig)).

Definition issued_init (this : GraphQLLite) (query : string) (variables : value)
    (requestConfig : option GraphQLClientOptions) : RequestInit.t :=
  let config := spread_config (config this) requestConfig in
  {| RequestInit.method := "POST";
     RequestInit.headers := sent_headers this requestConfig;
     RequestInit.body := JSON_stringify (request_body query variables);
     RequestInit.credentials := read (credentials config);
     RequestInit.mode := read (mode config);
     RequestInit.cache := read (cache config);
     RequestInit.signal :=
       {| aborts_after := timer_fires_after <$> countdown config |} |}.

(** The exchange the transport runs for a call, and how the awaited
    [fetch] comes out of it. *)
Definition issued_exchange (this : GraphQLLite) (query : string)
    (variables : value) (requestConfig : option GraphQLClientOptions) : exchange :=
  fetch (issued_input this requestConfig)
        (issued_init this query variables requestConfig).

Definition transport_outcome (this : GraphQLLite) (query : string)
    (variables : value) (requestConfig : option GraphQLClientOptions)
    : settled Response :=
  outcome (await_fetch (issued_input this requestConfig)
             (issued_init this query variables requestConfig) this).

End Issued.

(** ** What a call amounts to *)

(** The [catch] clause of [request] as a function on thrown values. *)
Definition rethrown (e : thrown) : thrown :=
  match e with
  | ThrownError e =>
      ThrownError (JsError.new ("GraphQL request failed: " +:+ JsError.message e))
  | ThrownOther v => ThrownOther v
  end.

(** The promise of [request], read off the awaited [fetch]. *)
Definition request_outcome (t : settled Response) : settled GraphQLResponse :=
  match t with
  | Fulfilled response =>
      if ok response then
        match json response with
        | Fulfilled parsed => Fulfilled parsed
        | Rejected e => Rejected (rethrown e)
        end
      else
        Rejected (rethrown (ThrownError
          (JsError.new ("HTTP error! status: " +:+ pretty (status response)))))
  | Rejected e => Rejected (rethrown e)
  end.

(** The promise of [query], read off the one of [request]. *)
Definition query_outcome (r : settled GraphQLResponse) : settled (option value) :=
  match r with
  | Fulfilled response =>
      match errors response with
      | Some es =>
          Rejected (ThrownError (JsError.new (String.concat ", " (message <$> es))))
      | None => Fulfilled (data response)
      end
  | Rejected e => Rejected e
  end.

(** The platform calls of one [request], in order. *)
Definition request_trace (config : GraphQLClientOptions) (input : option string)
    (init : RequestInit.t) (x : exchange) (t : settled Response) : list event :=
  from_option (λ ms, [SetTimeout ms]) [] (countdown config)
  ++ Fetch input init :: (if fired (RequestInit.signal init) x then [Abort] else [])
  ++ match t with
     | Fulfilled response =>
         if ok response
         then Json :: (if cut_short response then [Abort] else [])
         else []
     | Rejected _ => []
     end
  ++ from_option (λ _, [ClearTimeout]) [] (countdown config).

(** The promise of [request] on a transport left alone: the exchange and
    the body read as they settle by themselves. *)
Definition undisturbed_outcome (x : exchange) : settled GraphQLResponse :=
  match settle_with x with
  | Fulfilled answer =>
      if Reply.ok answer then
        match settle_with (Reply.body answer) with
        | Fulfilled parsed => Fulfilled parsed
        | Rejected e => Rejected (rethrown e)
        end
      else
        Rejected (rethrown (ThrownError
          (JsError.new ("HTTP error! status: " +:+ pretty (Reply.status answer)))))
  | Rejected e => Rejected (rethrown e)
  end.

(** A transport option of a call: the override's whenever the override has
    the key, the client's otherwise. *)
Definition replaced_wholesale {A} (client over : field A) (sent : option A) : Prop :=
  (over ≠ Missing → sent = read over) ∧ (over = Missing → sent = read client).

(** The operations a caller can run on a client, and a client's lifetime as
    a sequence of them. *)
Inductive call : Type :=
  | CallRequest (query : string) (variables : value)
      (requestConfig : option GraphQLClientOptions)
  | CallQuery (query : string) (variables : value)
      (requestConfig : option GraphQLClientOptions)
  | CallMutation (query : string) (variables : value)
      (requestConfig : option GraphQLClientOptions)
  | CallSetHeader (key value : string)
  | CallSetHeaders (new_headers : Headers).

Section Lifetime.

Context {platform : Platform}.

Definition perform (this : GraphQLLite) (c : call) : GraphQLLite :=
  match c with
  | CallRequest q v rc => this_after (request q v rc this)
  | CallQuery q v rc => this_after (query q v rc this)
  | CallMutation q v rc => this_after (mutation q v rc this)
  | CallSetHeader k v => this_after (setHeader k v this)
  | CallSetHeaders h => this_after (setHeaders h this)
  end.

Definition lifetime (options : GraphQLClientOptions) (calls : list call)
    : GraphQLLite :=
  foldl perform (createClient options) calls.

End Lifetime.

(** The stored default header mapping of a client. *)
Definition stored_headers (this : GraphQLLite) : Headers :=
  own (read (defaultHeaders (config this))).

(** ** Sample platforms and clients *)

Module Sample.

(** A stand-in serializer; no statement below depends on its text. *)
Definition stringify (v : value) : string :=
  match v with VObject _ => "{...}" | _ => "?" end.

(** A platform whose transport runs the same exchange whatever it is
    asked. *)
(** Timers as Node runs them: a delay below 1 or above 2^31 - 1 becomes
    1. *)
Definition fires_after (ms : Z) : Z :=
  if (ms <? 1) || (2147483647 <? ms) then 1 else ms.

Definition platform (x : exchange) : Platform :=
  {| JSON_stringify := stringify; fetch := λ _ _, x;
     timer_fires_after := fires_after |}.

Definition AbortError : thrown :=
  ThrownError {| JsError.name := "AbortError";
                 JsError.message := "The operation was aborted." |}.

Definition NetworkError : thrown :=
  ThrownError {| JsError.name := "TypeError"; JsError.message := "Network error" |}.

Definition user : value :=
  VObject [("user", VObject [("id", VString "123"); ("name", VString "John Doe")])].

Definition body_data : GraphQLResponse := {| data := Some user; errors := None |}.

Definition not_found : GraphQLError :=
  {| message := "User not found"; locations := None; path := None;
     extensions := None |}.

Definition forbidden : GraphQLError :=
  {| message := "Forbidden"; locations := Some [(1, 2)]; path := Some ["user"];
     extensions := None |}.

Definition body_errors : GraphQLResponse :=
  {| data := Some VNull; errors := Some [not_found; forbidden] |}.

Definition body_no_errors : GraphQLResponse :=
  {| data := Some user; errors := Some [] |}.

(** A reply whose body is at hand: the read settles at once. *)
Definition http (code : Z) (parsed : settled GraphQLResponse) : Reply.t :=
  {| Reply.ok := (200 <=? code) && (code <=? 299); Reply.status := code;
     Reply.body := {| settle_after := 0; settle_with := parsed;
                      on_abort := Some AbortError |} |}.

(** The same reply with a body that takes [reading] to read. *)
Definition http_streamed (code : Z) (reading : Z)
    (parsed : settled GraphQLResponse) : Reply.t :=
  {| Reply.ok := (200 <=? code) && (code <=? 299); Reply.status := code;
     Reply.body := {| settle_after := reading; settle_with := parsed;
                      on_abort := Some AbortError |} |}.

(** A reply as [fetch] hands it over [after] time units into a call whose
    controller is due at [due]. *)
Definition received (after : Z) (due : option Z) (r : Reply.t) : Response :=
  {| reply := r; signal := {| aborts_after := due |}; received_after := after |}.

(** A transport honouring its signal, as [fetch] does. *)
Definition answers (after : Z) (r : Reply.t) : exchange :=
  {| settle_after := after; settle_with := Fulfilled r;
     on_abort := Some AbortError |}.

Definition fails (after : Z) (e : thrown) : exchange :=
  {| settle_after := after; settle_with := Rejected e;
     on_abort := Some AbortError |}.

(** One that never looks at its signal, as a mocked [fetch] may. *)
Definition answers_deaf (after : Z) (r : Reply.t) : exchange :=
  {| settle_after := after; settle_with := Fulfilled r; on_abort := None |}.

(** Status [code] and the parsed body [parsed], after 10 time units. *)
Definition served (code : Z) (parsed : settled GraphQLResponse) : Platform :=
  platform (answers 10 (http code parsed)).

Definition serving_data : Platform := served 200 (Fulfilled body_data).
Definition serving_errors : Platform := served 200 (Fulfilled body_errors).
Definition serving_no_errors : Platform := served 200 (Fulfilled body_no_errors).
Definition serving_404 : Platform := served 404 (Fulfilled body_data).

(** The same data after 200 time units. *)
Definition slow : Platform :=
  platform (answers 200 (http 200 (Fulfilled body_data))).
Definition slow_deaf : Platform :=
  platform (answers_deaf 200 (http 200 (Fulfilled body_data))).

(** The reply after 10 time units, the body after 200 more. *)
Definition slow_body : Platform :=
  platform (answers 10 (http_streamed 200 200 (Fulfilled body_data))).

Definition offline : Platform := platform (fails 10 NetworkError).
Definition rejecting_string : Platform :=
  platform (fails 10 (ThrownOther (VString "boom"))).

Definition endpoint : string := "https://api.example.com/graphql".

Definition request_config (h : field Headers) : GraphQLRequestConfig :=
  {| url := Is endpoint; headers := h; credentials := Missing;
     mode := Missing; cache := Missing |}.

Definition options (h dh : field Headers) (t : field Z) : GraphQLClientOptions :=
  {| base := request_config h; defaultHeaders := dh; timeout := t |}.

Definition plain : GraphQLLite := createClient (options Missing Missing Missing).

Definition timed (ms : Z) : GraphQLLite :=
  createClient (options Missing Missing (Is ms)).

Definition with_token : GraphQLLite :=
  createClient (options (Is {["Authorization" := "Bearer client"]}) Missing Missing).

Definition override (h : field Headers) : GraphQLRequestConfig :=
  {| url := Missing; headers := h; credentials := Is include;
     mode := Missing; cache := Undefined |}.

Definition get_user : string := "query GetUser($id: ID!) { user(id:$id){id name} }".

Definition id_123 : value := VObject [("id", VString "123")].

End Sample.

(** ** The template tag *)

(** [String(v)]: also what [+] makes of a non-string operand next to a
    string. A parameter, like the rest of the language runtime. *)
Class Language : Type := { ToString : value → string }.

(** The text a value contributes to a string concatenation. *)
Definition text_of {language : Language} (v : value) : string :=
  match v with
  | VString s => s
  | _ => ToString v
  end.

(** [values[i] || '']: an index past the end reads [undefined]. *)
Definition interpolated {language : Language} (v : option value) : string :=
  match v with
  | Some v => if truthy v then text_of v else ""
  | None => ""
  end.

(** [strings.reduce((result, str, i) => result + str + (values[i] || ''), '')] *)
Definition gql {language : Language} (strings : list string) (values : list value) : string :=
  foldl (λ result '(i, str), (result +:+ str) +:+ interpolated (values !! i))
        "" (imap pair strings).

(** The strings and the texts between them, in turn. *)
Fixpoint weave (strings texts : list string) : string :=
  match strings, texts with
  | [], _ => ""
  | s :: strings, [] => s +:+ weave strings []
  | s :: strings, x :: texts => s +:+ x +:+ weave strings texts
  end.

(** ** The hooks *)

Module Hook.

(** The three state cells of [useQuery] and [useMutation]. [data] is
    [null] until a result is set; a result may itself be [undefined]. *)
Record state : Type := {
  data : value;
  error : option JsError.t;
  loading : bool;
}.

(** The callbacks a caller may pass; each returns or throws. *)
Record options : Type := {
  onCompleted : option (value → settled unit);
  onError : option (JsError.t → settled unit);
}.

End Hook.

(** [useState] as [useQuery] and as [useMutation] initialise it. *)
Definition useQuery_state : Hook.state :=
  {| Hook.data := VNull; Hook.error := None; Hook.loading := true |}.

Definition useMutation_state : Hook.state :=
  {| Hook.data := VNull; Hook.error := None; Hook.loading := false |}.

(** The callbacks invoked, in order. *)
Inductive notice : Type :=
  | Completed (data : value)
  | Errored (error : JsError.t).

(** What the body of a hook acts on: the client of the provider, the state
    cells, the callbacks invoked so far and the platform calls made. *)
Record world : Type := World {
  client : GraphQLLite;
  cells : Hook.state;
  notices : list notice;
  calls : list event;
}.

Definition effect (A : Type) : Type := world → settled A * world.

Module Effect.

Definition ret {A} (a : A) : effect A := λ w, (Fulfilled a, w).

Definition throw {A} (e : thrown) : effect A := λ w, (Rejected e, w).

Definition bind {A B} (m : effect A) (k : A → effect B) : effect B :=
  λ w,
    match m w with
    | (Fulfilled a, w') => k a w'
    | (Rejected e, w') => (Rejected e, w')
    end.

(** [try { m } catch (err) { h err }] *)
Definition try_catch {A} (m : effect A) (h : thrown → effect A) : effect A :=
  λ w,
    match m w with
    | (Fulfilled a, w') => (Fulfilled a, w')
    | (Rejected e, w') => h e w'
    end.

(** [try { m } finally { f }] *)
Definition try_finally {A} (m : effect A) (f : effect unit) : effect A :=
  λ w,
    match m w with
    | (o, w') =>
        match f w' with
        | (Fulfilled _, w'') => (o, w'')
        | (Rejected e, w'') => (Rejected e, w'')
        end
    end.

(** [await p] for a promise whose settlement is known. *)
Definition await {A} (p : settled A) : effect A :=
  match p with Fulfilled a => ret a | Rejected e => throw e end.

(** [await client.m(...)]: the method runs on the client, its platform
    calls are added to those made. *)
Definition call {A} (m : method A) : effect A :=
  λ w,
    let r := m (client w) in
    (outcome r,
     {| client := this_after r; cells := cells w; notices := notices w;
        calls := calls w ++ trace r |}).

End Effect.

Global Instance effect_ret : MRet effect := @Effect.ret.
Global Instance effect_bind : MBind effect := λ A B k m, Effect.bind m k.

Definition set_cells (f : Hook.state → Hook.state) : effect unit :=
  λ w,
    (Fulfilled (),
     {| client := client w; cells := f (cells w); notices := notices w;
        calls := calls w |}).

Definition setData (d : value) : effect unit :=
  set_cells (λ s, {| Hook.data := d; Hook.error := Hook.error s;
                     Hook.loading := Hook.loading s |}).

Definition setError (e : option JsError.t) : effect unit :=
  set_cells (λ s, {| Hook.data := Hook.data s; Hook.error := e;
                     Hook.loading := Hook.loading s |}).

Definition setLoading (b : bool) : effect unit :=
  set_cells (λ s, {| Hook.data := Hook.data s; Hook.error := Hook.error s;
                     Hook.loading := b |}).

(** [options?.callback?.(x)]: nothing happens without options or without
    the callback; a callback that throws throws here. *)
Definition invoke {X} (callback : option (X → settled unit)) (x : X)
    (n : notice) : effect unit :=
  match callback with
  | Some f =>
      λ w,
        Effect.await (f x)
          {| client := client w; cells := cells w;
             notices := notices w ++ [n]; calls := calls w |}
  | None => mret ()
  end.

(** What a method resolving to [T] hands over when the payload is absent:
    [undefined]. *)
Definition payload (result : option value) : value :=
  from_option id VUndefined result.

Section Hooks.

Context {platform : Platform} {language : Language}.

(** [err instanceof Error ? err : new Error(String(err))] *)
Definition as_Error (err : thrown) : JsError.t :=
  match err with
  | ThrownError e => e
  | ThrownOther v => JsError.new (ToString v)
  end.

(** [fetchData] of [useQuery]. [mounted] is the flag as the function finds
    it once the awaited query is back: the effect's cleanup, which clears
    it, can only run while the function is suspended there. *)
Definition fetchData (query_text : string) (variables : value)
    (options : option Hook.options) (mounted : bool) : effect unit :=
  Effect.try_finally
    (Effect.try_catch
       (setLoading true;;
        result ← Effect.call (query query_text variables None);
        if mounted then
          setData (payload result);;
          setError None;;
          invoke (options ≫= Hook.onCompleted) (payload result)
                 (Completed (payload result))
        else mret ())
       (λ err,
          if mounted then
            let error := as_Error err in
            setError (Some error);;
            setData VNull;;
            invoke (options ≫= Hook.onError) error (Errored error)
          else mret ()))
    (if mounted then setLoading false else mret ()).

(** [execute] of [useMutation] *)
Definition execute (mutation_text : string) (options : option Hook.options)
    (variables : value) : effect value :=
  Effect.try_finally
    (Effect.try_catch
       (setLoading true;;
        setError None;;
        result ← Effect.call (mutation mutation_text variables None);
        setData (payload result);;
        invoke (options ≫= Hook.onCompleted) (payload result)
               (Completed (payload result));;
        mret (payload result))
       (λ err,
          let error := as_Error err in
          setError (Some error);;
          setData VNull;;
          invoke (options ≫= Hook.onError) error (Errored error);;
          Effect.throw (ThrownError error)))
    (setLoading false).

End Hooks.

(** A hook mounted under a provider of [c], nothing having happened yet. *)
Definition mounted_with (c : GraphQLLite) (s : Hook.state) : world :=
  {| client := c; cells := s; notices := []; calls := [] |}.

(** Callbacks that return. *)
Definition returns {X} (callback : option (X → settled unit)) : Prop :=
  ∀ f x, callback = Some f → f x = Fulfilled ().

(** What [notices] gains from a callback that may be missing. *)
Definition noticed {X} (callback : option (X → settled unit)) (n : notice)
    : list notice :=
  from_option (λ _, [n]) [] callback.

Module HookSample.

(** A stand-in for [String]. *)
Definition language : Language :=
  {| ToString v :=
       match v with
       | VUndefined => "undefined"
       | VNull => "null"
       | VBool true => "true"
       | VBool false => "false"
       | VNumber n => pretty n
       | VString s => s
       | VArray _ => "..."
       | VObject _ => "[object Object]"
       end |}.

Definition create_user : string :=
  "mutation CreateUser($input: CreateUserInput!) { createUser(input: $input) { id name } }".

Definition listening : Hook.options :=
  {| Hook.onCompleted := Some (λ _, Fulfilled ());
     Hook.onError := Some (λ _, Fulfilled ()) |}.

Definition choking : Hook.options :=
  {| Hook.onCompleted :=
       Some (λ _, Rejected (ThrownError
                    {| JsError.name := "TypeError";
                       JsError.message := "Cannot read properties of null" |}));
     Hook.onError := Some (λ _, Fulfilled ()) |}.

End HookSample.

(** * Properties *)

(** Unfolds the methods and the monad down to records and matches, leaving
    the platform, the configuration and the reading of a response
    untouched. *)
Ltac step :=
  cbv beta iota zeta delta
    [request query mutation setHeader setHeaders await_json await_fetch
     setTimeout_abort clearTimeout try_finally try_catch get_config
     set_defaultHeaders emit await throw mbind method_bind bind mret
     method_ret ret outcome this_after trace fst snd app negb from_option
     transport_outcome issued_exchange request_trace request_outcome
     query_outcome issued_init issued_input sent_headers countdown
     rethrown new_AbortController RequestInit.signal fmap option_fmap
     option_map].

Section Runs.

Context {platform : Platform}.

(** ** The run of each method *)

Lemma await_fetch_run input init this :
  await_fetch input init this
  = Run (match
           (if fired (RequestInit.signal init) (fetch input init) then
              match on_abort (fetch input init) with
              | Some e => Rejected e
              | None => settle_with (fetch input init)
              end
            else settle_with (fetch input init))
         with
         | Fulfilled answer =>
             Fulfilled {| reply := answer; signal := RequestInit.signal init;
                          received_after := settle_after (fetch input init) |}
         | Rejected e => Rejected e
         end)
        this
        (Fetch input init
         :: if fired (RequestInit.signal init) (fetch input init)
            then [Abort] else []).
Proof.
  step. destruct (fired _ _); step;
    [destruct (on_abort (fetch input init)); step|];
    try reflexivity; by destruct (settle_with (fetch input init)).
Qed.

Lemma await_json_run response this :
  await_json response this
  = Run (json response) this (Json :: if cut_short response then [Abort] else []).
Proof.
  step. destruct (cut_short response); step; by destruct (json response).
Qed.

Lemma request_run q v rc this :
  request q v rc this
  = Run (request_outcome (transport_outcome this q v rc))
        this
        (request_trace (spread_config (config this) rc)
           (issued_input this rc) (issued_init this q v rc)
           (issued_exchange this q v rc) (transport_outcome this q v rc)).
Proof.
  step.
  destruct (read (timeout (spread_config (config this) rc))) as [ms|]; step;
    [destruct (ms =? 0); step|];
    (destruct (fired _ _); step;
     [destruct (on_abort _) as [[e'|w']|]; step; [reflexivity..|]|];
     destruct (settle_with _) as [[[] code read]|[e|w]]; step;
     try reflexivity;
     match goal with
     | |- context [cut_short ?r] =>
         destruct (cut_short r); step;
         destruct (json r) as [parsed|[e|w]]; reflexivity
     end).
Qed.

Lemma query_run q v rc this :
  query q v rc this
  = Run (query_outcome (request_outcome (transport_outcome this q v rc)))
        this
        (trace (request q v rc this)).
Proof.
  unfold query, mbind, method_bind, bind.
  rewrite request_run. cbn [outcome this_after trace].
  destruct (request_outcome _) as [[d [es|]]|e]; cbn; by rewrite ?app_nil_r.
Qed.

Lemma mutation_run q v rc this : mutation q v rc this = query q v rc this.
Proof. reflexivity. Qed.

Lemma setHeader_run key value this :
  setHeader key value this
  = Run (Fulfilled ())
        {| config := {| base := base (config this);
                        defaultHeaders := Is (<[key := value]> (stored_headers this));
                        timeout := timeout (config this) |} |}
        [].
Proof. reflexivity. Qed.

Lemma setHeaders_run new_headers this :
  setHeaders new_headers this
  = Run (Fulfilled ())
        {| config := {| base := base (config this);
                        defaultHeaders := Is (new_headers ∪ stored_headers this);
                        timeout := timeout (config this) |} |}
        [].
Proof. reflexivity. Qed.

(** ** The timer of a call *)

(** The delay armed is a [timeout] that is a number other than 0. *)
Lemma countdown_Some c ms :
  countdown c = Some ms ↔ read (timeout c) = Some ms ∧ ms ≠ 0.
Proof.
  unfold countdown. destruct (read (timeout c)) as [ms'|].
  - destruct (Z.eqb_spec ms' 0) as [->|Hne].
    + split; [done|]. by intros [[= <-] ?].
    + split; [by intros [= <-]|by intros [[= <-] _]].
  - split; [done|by intros [? _]].
Qed.

(** The signal a call hands to [fetch] fires on the pending [fetch] exactly
    when a delay is armed and its timer is due no later than the
    exchange. *)
Lemma fired_issued q v rc this :
  fired (RequestInit.signal (issued_init this q v rc))
        (issued_exchange this q v rc) = true
  ↔ ∃ ms, countdown (spread_config (config this) rc) = Some ms
           ∧ timer_fires_after ms ≤ settle_after (issued_exchange this q v rc).
Proof.
  unfold fired. cbn [issued_init RequestInit.signal aborts_after].
  destruct (countdown (spread_config (config this) rc)) as [ms|];
    cbn [fmap option_fmap option_map].
  - rewrite Z.leb_le. split; [eauto|by intros (? & [= <-] & ?)].
  - split; [done|by intros (? & [=] & _)].
Qed.

(** The awaited [fetch], in the transport's terms. *)
Lemma transport_outcome_eq this q v rc :
  transport_outcome this q v rc
  = let x := issued_exchange this q v rc in
    let signal := RequestInit.signal (issued_init this q v rc) in
    match
      (if fired signal x then
         match on_abort x with
         | Some e => Rejected e
         | None => settle_with x
         end
       else settle_with x)
    with
    | Fulfilled answer =>
        Fulfilled {| reply := answer; signal := signal;
                     received_after := settle_after x |}
    | Rejected e => Rejected e
    end.
Proof. unfold transport_outcome. by rewrite await_fetch_run. Qed.

(** A response that came in belongs to the call: its signal is the one of
    the call, its time the one the exchange took. *)
Lemma transport_outcome_response this q v rc response :
  transport_outcome this q v rc = Fulfilled response →
  signal response = RequestInit.signal (issued_init this q v rc)
  ∧ received_after response = settle_after (issued_exchange this q v rc).
Proof.
  rewrite transport_outcome_eq. cbv zeta.
  destruct (if fired _ _ then _ else _); by intros [= <-].
Qed.

(** An override that carries no [timeout], none at all to begin with,
    leaves the client's in effect; likewise for [defaultHeaders]. *)
Lemma spread_config_timeout c rc :
  from_option timeout Missing rc = Missing →
  timeout (spread_config c rc) = timeout c.
Proof. destruct rc as [rc|]; cbn; [by intros ->|done]. Qed.

Lemma spread_config_defaultHeaders c rc :
  from_option defaultHeaders Missing rc = Missing →
  defaultHeaders (spread_config c rc) = defaultHeaders c.
Proof. destruct rc as [rc|]; cbn; [by intros ->|done]. Qed.

(** ** Reading the trace of a request *)

Lemma fetches_app t1 t2 : fetches (t1 ++ t2) = fetches t1 ++ fetches t2.
Proof. apply omap_app. Qed.

Lemma timeouts_app t1 t2 : timeouts (t1 ++ t2) = timeouts t1 ++ timeouts t2.
Proof. apply omap_app. Qed.

Lemma request_fetches q v rc this :
  fetches (trace (request q v rc this))
  = [(issued_input this rc, issued_init this q v rc)].
Proof.
  rewrite request_run. cbn [trace]. unfold request_trace.
  rewrite fetches_app.
  destruct (countdown _), (fired _ _),
    (transport_outcome _ _ _ _) as [response|];
    [destruct (ok response), (cut_short response)| |
     destruct (ok response), (cut_short response)| |
     destruct (ok response), (cut_short response)| |
     destruct (ok response), (cut_short response)|];
    reflexivity.
Qed.

Lemma request_timeouts q v rc this :
  timeouts (trace (request q v rc this))
  = from_option (λ ms, [ms]) [] (countdown (spread_config (config this) rc)).
Proof.
  rewrite request_run. cbn [trace]. unfold request_trace.
  rewrite timeouts_app.
  destruct (countdown _), (fired _ _),
    (transport_outcome _ _ _ _) as [response|];
    [destruct (ok response), (cut_short response)| |
     destruct (ok response), (cut_short response)| |
     destruct (ok response), (cut_short response)| |
     destruct (ok response), (cut_short response)|];
    reflexivity.
Qed.

Lemma request_json q v rc this :
  Json ∈ trace (request q v rc this)
  ↔ ∃ response, transport_outcome this q v rc = Fulfilled response
                 ∧ ok response = true.
Proof.
  rewrite request_run. cbn [trace]. unfold request_trace.
  destruct (transport_outcome _ _ _ _) as [response|e];
    [destruct (ok response) eqn:Hok; [destruct (cut_short response)|]|];
    destruct (countdown _), (fired _ _); cbn;
    rewrite ?elem_of_cons, ?elem_of_nil;
    (split; [intros H | intros (r & H & Hr)]);
    try (exists response; done);
    try (simplify_eq; congruence);
    intuition discriminate.
Qed.

(** [controller.abort()] runs when the timer fires on the pending [fetch],
    or on the body read that follows a response with a success status. *)
Lemma request_abort q v rc this :
  Abort ∈ trace (request q v rc this)
  ↔ fired (RequestInit.signal (issued_init this q v rc))
          (issued_exchange this q v rc) = true
    ∨ ∃ response, transport_outcome this q v rc = Fulfilled response
                   ∧ ok response = true
                   ∧ cut_short response = true.
Proof.
  rewrite request_run. cbn [trace]. unfold request_trace.
  fold (issued_exchange this q v rc).
  destruct (fired _ _);
    [split; [by left|intros _]; destruct (countdown _); cbn;
     rewrite ?elem_of_cons; tauto|].
  destruct (transport_outcome _ _ _ _) as [response|e];
    [destruct (ok response) eqn:Hok; [destruct (cut_short response) eqn:Hcut|]|];
    destruct (countdown _); cbn;
    rewrite ?elem_of_cons, ?elem_of_nil;
    (split; [intros H | intros [H|(r & H & Hr & Hc)]]);
    try discriminate;
    try (right; exists response; done);
    try (simplify_eq; congruence);
    try tauto;
    intuition discriminate.
Qed.

(** ** The request that goes out *)

(** C1. Whatever the operation text and the variables (a mapping, or
    omitted), a call to [request], [query] or [mutation] makes exactly one
    [fetch], a POST, whose body is the JSON text of the object with the two
    keys [query], holding the operation text, and [variables], holding the
    mapping or the empty mapping when it was omitted. The key is [query]
    for a mutation as well. *)
Theorem one_post_of_query_and_variables
    (q : string) (v : option (list (string * value)))
    (rc : option GraphQLClientOptions) (this : GraphQLLite) :
  let body :=
    JSON_stringify
      (VObject [("query", VString q); ("variables", VObject (default [] v))]) in
  one_post (trace (request q (variables_arg v) rc this)) body
  ∧ one_post (trace (query q (variables_arg v) rc this)) body
  ∧ one_post (trace (mutation q (variables_arg v) rc this)) body.
Proof.
  intros body.
  assert (one_post (trace (request q (variables_arg v) rc this)) body) as Hone.
  { exists (issued_input this rc), (issued_init this q (variables_arg v) rc).
    split; [apply request_fetches|]. split; [reflexivity|].
    subst body. by destruct v. }
  unfold mutation. rewrite query_run. cbn [trace]. auto.
Qed.

(** Variables that are not a mapping but falsy ([null], [0], the empty
    string, [false]) are sent as the empty mapping too. *)
Lemma falsy_variables_sent_empty q v :
  truthy v = false →
  request_body q v = VObject [("query", VString q); ("variables", VObject [])].
Proof. unfold request_body, or_else. by intros ->. Qed.

(** ** The receiver is left alone *)

(** C9. A call to [request], [query] or [mutation], with any per-call
    override, leaves the client's stored configuration (endpoint, header
    mappings, transport options, timeout) exactly as it was: the override
    is merged into a fresh object. *)
Theorem call_keeps_stored_configuration
    (q : string) (v : value) (rc : option GraphQLClientOptions)
    (this : GraphQLLite) :
  this_after (request q v rc this) = this
  ∧ this_after (query q v rc this) = this
  ∧ this_after (mutation q v rc this) = this.
Proof.
  unfold mutation. rewrite query_run, request_run.
  cbn [this_after]. auto.
Qed.

End Runs.

Section Configuration.

Context {platform : Platform}.

(** ** The default header mapping *)

Lemma stored_headers_new options :
  stored_headers (createClient options)
  = own (read (defaultHeaders options)) ∪ {["Content-Type" := "application/json"]}.
Proof. reflexivity. Qed.

Lemma stored_headers_setHeader key value this :
  stored_headers (this_after (setHeader key value this))
  = <[key := value]> (stored_headers this).
Proof. reflexivity. Qed.

Lemma stored_headers_setHeaders new_headers this :
  stored_headers (this_after (setHeaders new_headers this))
  = new_headers ∪ stored_headers this.
Proof. reflexivity. Qed.

Lemma perform_call this c :
  match c with
  | CallRequest _ _ _ | CallQuery _ _ _ | CallMutation _ _ _ =>
      perform this c = this
  | CallSetHeader k v =>
      stored_headers (perform this c) = <[k := v]> (stored_headers this)
  | CallSetHeaders h =>
      stored_headers (perform this c) = h ∪ stored_headers this
  end.
Proof.
  destruct c as [q v rc|q v rc|q v rc|k v|h]; cbn [perform];
    try reflexivity;
    unfold mutation; rewrite ?query_run, ?request_run; reflexivity.
Qed.

(** No operation removes a key from the stored mapping. *)
Lemma perform_keeps_keys this c k :
  is_Some (stored_headers this !! k) →
  is_Some (stored_headers (perform this c) !! k).
Proof.
  intros Hk. pose proof (perform_call this c) as Hc.
  destruct c as [q v rc|q v rc|q v rc|k' v|h]; rewrite Hc; try done.
  - destruct (decide (k' = k)) as [->|Hne].
    + rewrite lookup_insert_eq. eauto.
    + by rewrite lookup_insert_ne.
  - destruct (h !! k) as [x|] eqn:Hh.
    + exists x. by apply lookup_union_Some_l.
    + by rewrite lookup_union_r.
Qed.

Lemma foldl_perform_keeps_keys calls this k :
  is_Some (stored_headers this !! k) →
  is_Some (stored_headers (foldl perform this calls) !! k).
Proof.
  revert this. induction calls as [|c calls IH]; intros this Hk; [done|].
  cbn [foldl]. by apply IH, perform_keeps_keys.
Qed.

(** C10. A constructed client stores a default header mapping holding
    ['Content-Type']: ['application/json'] when the options' [defaultHeaders]
    have no such key, the caller's value when they have (every entry the
    caller supplies is kept, the seeded one gives way per key). The key
    stays there through whatever is called on the client afterwards. *)
Theorem content_type_always_stored
    (options : GraphQLClientOptions) (calls : list call) :
  let supplied := own (read (defaultHeaders options)) in
  defaultHeaders (config (createClient options))
  = Is (stored_headers (createClient options))
  ∧ stored_headers (createClient options) !! "Content-Type"
    = Some (default "application/json" (supplied !! "Content-Type"))
  ∧ (∀ k x, supplied !! k = Some x →
            stored_headers (createClient options) !! k = Some x)
  ∧ is_Some (stored_headers (lifetime options calls) !! "Content-Type").
Proof.
  intros supplied. split; [reflexivity|].
  assert (stored_headers (createClient options) !! "Content-Type"
          = Some (default "application/json" (supplied !! "Content-Type")))
    as Hct.
  { rewrite stored_headers_new. fold supplied.
    destruct (supplied !! "Content-Type") as [x|] eqn:Hx; cbn [default].
    - by apply lookup_union_Some_l.
    - rewrite lookup_union_r by done. apply lookup_singleton_eq. }
  split; [exact Hct|]. split.
  - intros k x Hk. rewrite stored_headers_new. by apply lookup_union_Some_l.
  - apply foldl_perform_keeps_keys. rewrite Hct. eauto.
Qed.

(** The [headers] option of a client is out of reach of [setHeader] and
    [setHeaders]. *)
Lemma headers_setHeader key value this rc :
  headers (spread_config (config (this_after (setHeader key value this))) rc)
  = headers (spread_config (config this) rc).
Proof. by destruct rc. Qed.

Lemma headers_setHeaders new_headers this rc :
  headers (spread_config (config (this_after (setHeaders new_headers this))) rc)
  = headers (spread_config (config this) rc).
Proof. by destruct rc. Qed.

(** The headers of a call that brings no [defaultHeaders] of its own. *)
Lemma sent_headers_stored this rc :
  from_option defaultHeaders Missing rc = Missing →
  sent_headers this rc
  = own (read (headers (spread_config (config this) rc))) ∪ stored_headers this.
Proof.
  intros Hrc. unfold sent_headers, stored_headers.
  by rewrite spread_config_defaultHeaders.
Qed.

(** C8 (amended). [setHeader] called twice with one key leaves the stored
    mapping as a single call with the later value would, so only that value
    is held for the key; [setHeaders] leaves every key its argument does
    not mention as it was. The updated mapping is the default header
    mapping of each later call on the client that brings no
    [defaultHeaders] of its own: such a call sends a key with its stored
    value, except a key of the [headers] mapping in effect (the
    override's, or else the client's [headers] option), which is sent with
    the value it has there. *)
Theorem header_updates_merge_by_key
    (key v1 v2 : string) (partial : Headers) (this : GraphQLLite)
    (q : string) (v : value) (rc : option GraphQLClientOptions) :
  let twice := this_after (setHeader key v2 (this_after (setHeader key v1 this))) in
  let merged := this_after (setHeaders partial this) in
  let over := own (read (headers (spread_config (config this) rc))) in
  twice = this_after (setHeader key v2 this)
  ∧ stored_headers twice !! key = Some v2
  ∧ (∀ k, k ≠ key → stored_headers twice !! k = stored_headers this !! k)
  ∧ (∀ k, partial !! k = None →
          stored_headers merged !! k = stored_headers this !! k)
  ∧ (∀ k x, partial !! k = Some x → stored_headers merged !! k = Some x)
  ∧ (from_option defaultHeaders Missing rc = Missing →
     ∀ next, next = twice ∨ next = merged →
       ∀ t, t = trace (request q v rc next) ∨ t = trace (query q v rc next)
            ∨ t = trace (mutation q v rc next) →
       ∃ input init,
         fetches t = [(input, init)]
         ∧ RequestInit.headers init = over ∪ stored_headers next
         ∧ (∀ k, over !! k = None →
                 RequestInit.headers init !! k = stored_headers next !! k)
         ∧ (∀ k x, over !! k = Some x → RequestInit.headers init !! k = Some x)).
Proof.
  intros twice merged over.
  assert (stored_headers twice = <[key := v2]> (stored_headers this)) as Htwice.
  { unfold twice. rewrite !stored_headers_setHeader. apply insert_insert_eq. }
  split; [|split; [|split; [|split; [|split]]]].
  - unfold twice. rewrite !setHeader_run. cbn [this_after config base timeout].
    do 3 f_equal. unfold stored_headers at 1. cbn [config defaultHeaders read own default].
    apply insert_insert_eq.
  - rewrite Htwice. apply lookup_insert_eq.
  - intros k Hk. rewrite Htwice. by apply lookup_insert_ne.
  - intros k Hk. unfold merged. rewrite stored_headers_setHeaders.
    by apply lookup_union_r.
  - intros k x Hk. unfold merged. rewrite stored_headers_setHeaders.
    by apply lookup_union_Some_l.
  - intros Hrc next Hnext t Ht.
    exists (issued_input next rc), (issued_init next q v rc).
    assert (RequestInit.headers (issued_init next q v rc)
            = over ∪ stored_headers next) as Hsent.
    { cbn [issued_init RequestInit.headers].
      rewrite sent_headers_stored by done. unfold over.
      destruct Hnext as [-> | ->]; unfold twice, merged;
        by rewrite ?headers_setHeader, ?headers_setHeaders. }
    split; [|split; [exact Hsent|rewrite Hsent; split]].
    + unfold mutation in Ht. rewrite query_run in Ht. cbn [trace] in Ht.
      assert (t = trace (request q v rc next)) as -> by tauto.
      apply request_fetches.
    + intros k Hk. by apply lookup_union_r.
    + intros k x Hk. by apply lookup_union_Some_l.
Qed.

End Configuration.

Section Outcomes.

Context {platform : Platform}.

(** ** Outcomes *)

Lemma request_outcome_eq q v rc this :
  outcome (request q v rc this) = request_outcome (transport_outcome this q v rc).
Proof. by rewrite request_run. Qed.

Lemma query_outcome_eq q v rc this :
  outcome (query q v rc this) = query_outcome (outcome (request q v rc this)).
Proof. by rewrite query_run, request_run. Qed.

Lemma query_trace q v rc this :
  trace (query q v rc this) = trace (request q v rc this).
Proof. by rewrite query_run. Qed.

(** A failed [request] fails [query] with the same thrown value. *)
Lemma query_rejected q v rc this e :
  outcome (request q v rc this) = Rejected e →
  outcome (query q v rc this) = Rejected e.
Proof. rewrite query_outcome_eq. by intros ->. Qed.

(** A timer that fires while the exchange is pending, or at the very
    time it would settle, settles the awaited [fetch] with the transport's
    abort rejection, when the transport has one. *)
Lemma transport_outcome_aborted q v rc this ms e :
  read (timeout (spread_config (config this) rc)) = Some ms →
  ms ≠ 0 →
  timer_fires_after ms ≤ settle_after (issued_exchange this q v rc) →
  on_abort (issued_exchange this q v rc) = Some e →
  transport_outcome this q v rc = Rejected e.
Proof.
  intros Ht Hms Hle Hab. rewrite transport_outcome_eq. cbv zeta.
  assert (fired (RequestInit.signal (issued_init this q v rc))
                (issued_exchange this q v rc) = true) as ->.
  { apply fired_issued. exists ms. by rewrite countdown_Some. }
  by rewrite Hab.
Qed.

(** The timer of a response that came in, when a delay is armed. *)
Lemma cut_short_response q v rc this response ms :
  transport_outcome this q v rc = Fulfilled response →
  countdown (spread_config (config this) rc) = Some ms →
  cut_short response = true
  ↔ received_after response < timer_fires_after ms
    ∧ timer_fires_after ms
      ≤ received_after response + settle_after (Reply.body (reply response)).
Proof.
  intros [Hsig _]%transport_outcome_response Hcd. unfold cut_short.
  rewrite Hsig. cbn [issued_init RequestInit.signal aborts_after].
  rewrite Hcd. cbn [fmap option_fmap option_map].
  by rewrite andb_true_iff, Z.ltb_lt, Z.leb_le.
Qed.

Lemma cut_short_unarmed q v rc this response :
  transport_outcome this q v rc = Fulfilled response →
  countdown (spread_config (config this) rc) = None →
  cut_short response = false.
Proof.
  intros [Hsig _]%transport_outcome_response Hcd. unfold cut_short.
  rewrite Hsig. cbn [issued_init RequestInit.signal aborts_after].
  by rewrite Hcd.
Qed.

(** A body read the timer cuts short settles with the abort rejection of
    the read, when it has one. *)
Lemma json_cut_short response e :
  cut_short response = true →
  on_abort (Reply.body (reply response)) = Some e →
  json response = Rejected e.
Proof. unfold json. by intros -> ->. Qed.

(** C3 (amended). When the transport call succeeds and the body parses,
    [request] returns the body as it is, errors or not. [query] and
    [mutation] fail exactly when the body has an [errors] list, be it
    empty, with the errors' messages joined by [", "] as the message (the
    empty string for the empty list); with no [errors] list they return the
    data payload, absent or not. *)
Theorem query_fails_on_errors_list
    (q : string) (v : value) (rc : option GraphQLClientOptions)
    (this : GraphQLLite) (response : Response) (body : GraphQLResponse) :
  transport_outcome this q v rc = Fulfilled response →
  ok response = true →
  json response = Fulfilled body →
  outcome (request q v rc this) = Fulfilled body
  ∧ outcome (query q v rc this)
    = match errors body with
      | Some es =>
          Rejected (ThrownError
            {| JsError.name := "Error";
               JsError.message := String.concat ", " (message <$> es) |})
      | None => Fulfilled (data body)
      end
  ∧ outcome (mutation q v rc this) = outcome (query q v rc this)
  ∧ ((∃ e, outcome (query q v rc this) = Rejected e) ↔ is_Some (errors body)).
Proof.
  intros HT Hok Hjson.
  assert (outcome (request q v rc this) = Fulfilled body) as Hreq.
  { rewrite request_outcome_eq, HT. cbn [request_outcome].
    by rewrite Hok, Hjson. }
  split; [exact Hreq|].
  assert (outcome (query q v rc this) = query_outcome (Fulfilled body)) as Hq.
  { by rewrite query_outcome_eq, Hreq. }
  split; [exact Hq|]. split; [reflexivity|].
  rewrite Hq. cbn [query_outcome].
  destruct (errors body) as [es|]; split.
  - eauto.
  - intros _. eauto.
  - intros [e [=]].
  - intros [es [=]].
Qed.

(** C4. When the transport call comes back with a status that is not a
    success ([response.ok] is false), [request], and with it [query] and
    [mutation], fail with an [Error] whose message ends in the status
    code; [response.json()] is never called and no response value is
    returned. *)
Theorem http_failure_is_raised
    (q : string) (v : value) (rc : option GraphQLClientOptions)
    (this : GraphQLLite) (response : Response) :
  transport_outcome this q v rc = Fulfilled response →
  ok response = false →
  let failure :=
    ThrownError
      {| JsError.name := "Error";
         JsError.message :=
           "GraphQL request failed: HTTP error! status: "
           +:+ pretty (status response) |} in
  outcome (request q v rc this) = Rejected failure
  ∧ outcome (query q v rc this) = Rejected failure
  ∧ outcome (mutation q v rc this) = Rejected failure
  ∧ (Json ∉ trace (request q v rc this))
  ∧ (Json ∉ trace (query q v rc this))
  ∧ (Json ∉ trace (mutation q v rc this)).
Proof.
  intros HT Hok failure.
  assert (outcome (request q v rc this) = Rejected failure) as Hreq.
  { rewrite request_outcome_eq, HT. cbn [request_outcome]. by rewrite Hok. }
  assert (Json ∉ trace (request q v rc this)) as Hjson.
  { rewrite request_json, HT. intros (r & [= <-] & Hr). congruence. }
  unfold mutation. rewrite query_trace.
  repeat split; auto using query_rejected.
Qed.

(** C5 (amended). With a non-zero timeout in effect for the call (the
    override's when it brings one, the client's otherwise), the timer is
    set with that delay and the signal handed to the transport is the one
    it aborts. A [fetch] that has not settled before the timer fires is
    aborted, and so is the read of the body of a response with a success
    status that came in before. When the transport answers the abort by
    rejecting, as [fetch] does, [request], [query] and [mutation] fail
    with that rejection raised again, under the request-failure prefix
    when it is an [Error], and no success result is returned. *)
Theorem timeout_aborts_pending_call
    (q : string) (v : value) (rc : option GraphQLClientOptions)
    (this : GraphQLLite) (ms : Z) :
  read (timeout (spread_config (config this) rc)) = Some ms →
  ms ≠ 0 →
  let x := issued_exchange this q v rc in
  let failed (by_raising : thrown) :=
    outcome (request q v rc this) = Rejected by_raising
    ∧ outcome (query q v rc this) = Rejected by_raising
    ∧ outcome (mutation q v rc this) = Rejected by_raising in
  let prefixed (e : JsError.t) :=
    ThrownError
      {| JsError.name := "Error";
         JsError.message := "GraphQL request failed: " +:+ JsError.message e |} in
  timeouts (trace (request q v rc this)) = [ms]
  ∧ aborts_after (RequestInit.signal (issued_init this q v rc))
    = Some (timer_fires_after ms)
  ∧ (timer_fires_after ms ≤ settle_after x →
     Abort ∈ trace (request q v rc this)
     ∧ (∀ e, on_abort x = Some (ThrownError e) → failed (prefixed e))
     ∧ (∀ w, on_abort x = Some (ThrownOther w) → failed (ThrownOther w)))
  ∧ (∀ response,
       transport_outcome this q v rc = Fulfilled response →
       ok response = true →
       received_after response < timer_fires_after ms →
       timer_fires_after ms
       ≤ received_after response + settle_after (Reply.body (reply response)) →
       Abort ∈ trace (request q v rc this)
       ∧ (∀ e, on_abort (Reply.body (reply response)) = Some (ThrownError e) →
               failed (prefixed e))
       ∧ (∀ w, on_abort (Reply.body (reply response)) = Some (ThrownOther w) →
               failed (ThrownOther w))).
Proof.
  intros Ht Hms x failed prefixed.
  assert (countdown (spread_config (config this) rc) = Some ms) as Hcd
    by by apply countdown_Some.
  assert (∀ e, outcome (request q v rc this) = Rejected e → failed e) as Hfailed.
  { intros e He. unfold failed, mutation. auto using query_rejected. }
  split; [by rewrite request_timeouts, Hcd|].
  split; [cbn [issued_init RequestInit.signal aborts_after]; by rewrite Hcd|].
  split.
  - intros Hle.
    split; [apply request_abort; left; apply fired_issued; eauto|].
    split; [intros e Hab|intros w Hab]; apply Hfailed;
      rewrite request_outcome_eq;
      by rewrite (transport_outcome_aborted q v rc this ms _ Ht Hms Hle Hab).
  - intros response HT Hok Hlt Hle.
    assert (cut_short response = true) as Hcut
      by by apply (cut_short_response q v rc this response ms).
    split; [apply request_abort; right; by exists response|].
    split; [intros e Hab|intros w Hab]; apply Hfailed;
      rewrite request_outcome_eq, HT; cbn [request_outcome];
      by rewrite Hok, (json_cut_short response _ Hcut Hab).
Qed.

(** C6 (amended). A failure of the transport, of the status check or of
    the body parse that is an [Error] instance is raised again by
    [request] as a plain [Error] whose message is the request-failure
    prefix followed by the original message, whatever the original's name:
    the rejection of an aborted call is wrapped like any other. A thrown
    value that is not an [Error] instance is raised again as it is. *)
Theorem failures_are_rethrown
    (q : string) (v : value) (rc : option GraphQLClientOptions)
    (this : GraphQLLite) :
  let wrapped (msg : string) : settled GraphQLResponse :=
    Rejected (ThrownError
      {| JsError.name := "Error";
         JsError.message := "GraphQL request failed: " +:+ msg |}) in
  (∀ e, transport_outcome this q v rc = Rejected (ThrownError e) →
        outcome (request q v rc this) = wrapped (JsError.message e))
  ∧ (∀ response,
        transport_outcome this q v rc = Fulfilled response →
        ok response = false →
        outcome (request q v rc this)
        = wrapped ("HTTP error! status: " +:+ pretty (status response)))
  ∧ (∀ response e,
        transport_outcome this q v rc = Fulfilled response →
        ok response = true →
        json response = Rejected (ThrownError e) →
        outcome (request q v rc this) = wrapped (JsError.message e))
  ∧ (∀ ms e,
        read (timeout (spread_config (config this) rc)) = Some ms →
        ms ≠ 0 →
        timer_fires_after ms ≤ settle_after (issued_exchange this q v rc) →
        on_abort (issued_exchange this q v rc) = Some (ThrownError e) →
        outcome (request q v rc this) = wrapped (JsError.message e))
  ∧ (∀ w, transport_outcome this q v rc = Rejected (ThrownOther w) →
        outcome (request q v rc this) = Rejected (ThrownOther w))
  ∧ (∀ response w,
        transport_outcome this q v rc = Fulfilled response →
        ok response = true →
        json response = Rejected (ThrownOther w) →
        outcome (request q v rc this) = Rejected (ThrownOther w)).
Proof.
  intros wrapped. rewrite request_outcome_eq.
  split; [|split; [|split; [|split; [|split]]]].
  - by intros e ->.
  - intros response -> Hok. cbn [request_outcome]. by rewrite Hok.
  - intros response e -> Hok Hjson. cbn [request_outcome].
    by rewrite Hok, Hjson.
  - intros ms e Ht Hms Hle Hab.
    by rewrite (transport_outcome_aborted q v rc this ms (ThrownError e)).
  - by intros w ->.
  - intros response w -> Hok Hjson. cbn [request_outcome].
    by rewrite Hok, Hjson.
Qed.

End Outcomes.

Section Overrides.

Context {platform : Platform}.

(** ** Per-call overrides *)

Lemma spread_replaced_wholesale {A} (client over : field A) :
  replaced_wholesale client over (read (spread client over)).
Proof. split; by destruct over. Qed.

(** The three calls leave the same trace. *)
Lemma call_trace q v rc this t :
  t = trace (request q v rc this) ∨ t = trace (query q v rc this)
  ∨ t = trace (mutation q v rc this) →
  t = trace (request q v rc this).
Proof.
  unfold mutation. rewrite query_trace. tauto.
Qed.

(** C2 (amended). The headers of a call are the default header mapping
    in effect, which is the client's stored one unless the override brings
    a [defaultHeaders] of its own, merged by key with one [headers]
    mapping, which wins per key: the per-call override's [headers] when
    the override has that field, the client's own [headers] option
    otherwise. A key of the defaults that the overriding mapping lacks
    keeps its default value; the client's [headers] option, for its part,
    gives way as a whole to a per-call [headers]. Credentials,
    cross-origin mode and cache mode are the override's whenever the
    override has the field. *)
Theorem stored_defaults_merge_with_override
    (q : string) (v : value) (rc : GraphQLClientOptions) (this : GraphQLLite)
    (t : list event) :
  t = trace (request q v (Some rc) this) ∨ t = trace (query q v (Some rc) this)
  ∨ t = trace (mutation q v (Some rc) this) →
  let defaults :=
    match defaultHeaders rc with
    | Missing => stored_headers this
    | Undefined => ∅
    | Is per_call => per_call
    end in
  ∃ input init,
    fetches t = [(input, init)]
    ∧ (∀ h, headers rc = Is h →
         RequestInit.headers init = h ∪ defaults
         ∧ (∀ k x, h !! k = Some x → RequestInit.headers init !! k = Some x)
         ∧ (∀ k, h !! k = None →
                 RequestInit.headers init !! k = defaults !! k))
    ∧ (headers rc = Undefined → RequestInit.headers init = defaults)
    ∧ (headers rc = Missing →
         RequestInit.headers init
         = own (read (headers (config this))) ∪ defaults)
    ∧ replaced_wholesale (credentials (config this)) (credentials rc)
        (RequestInit.credentials init)
    ∧ replaced_wholesale (mode (config this)) (mode rc) (RequestInit.mode init)
    ∧ replaced_wholesale (cache (config this)) (cache rc) (RequestInit.cache init).
Proof.
  intros ->%call_trace defaults.
  exists (issued_input this (Some rc)), (issued_init this q v (Some rc)).
  split; [apply request_fetches|].
  cbn [issued_init RequestInit.headers RequestInit.credentials
       RequestInit.mode RequestInit.cache].
  unfold sent_headers.
  cbn [spread_config base headers credentials mode cache defaultHeaders].
  assert (own (read (spread (defaultHeaders (config this)) (defaultHeaders rc)))
          = defaults) as ->.
  { unfold defaults, stored_headers. by destruct (defaultHeaders rc). }
  split; [|split; [|split; [|auto using spread_replaced_wholesale]]].
  - intros h ->. cbn [spread read own default].
    split; [done|]. split.
    + intros k x Hk. by apply lookup_union_Some_l.
    + intros k Hk. by apply lookup_union_r.
  - intros ->. cbn [spread read own default]. apply (left_id_L ∅ (∪)).
  - by intros ->.
Qed.

(** C7. A per-call override can replace the endpoint address, the
    [headers] mapping, the credential mode, the cross-origin mode, the
    cache mode and the timeout, and what it gives for one of them is what
    the call uses: the address fetched, the [headers] sent key by key over
    the default header mapping, the transport options passed, and the
    delay of the one timer set, which is the timer the signal of the call
    is aborted by; an overriding timeout of 0, or [undefined], has the
    call set no timer at all, whatever the client's timeout. *)
Theorem override_fields_in_effect
    (q : string) (v : value) (rc : GraphQLClientOptions) (this : GraphQLLite)
    (t : list event) :
  t = trace (request q v (Some rc) this) ∨ t = trace (query q v (Some rc) this)
  ∨ t = trace (mutation q v (Some rc) this) →
  ∃ input init,
    fetches t = [(input, init)]
    ∧ (url rc ≠ Missing → input = read (url rc))
    ∧ (headers rc ≠ Missing →
         RequestInit.headers init
         = own (read (headers rc))
           ∪ own (read (defaultHeaders (spread_config (config this) (Some rc))))
         ∧ ∀ k x, own (read (headers rc)) !! k = Some x →
                  RequestInit.headers init !! k = Some x)
    ∧ (headers rc ≠ Missing → defaultHeaders rc = Missing →
         RequestInit.headers init
         = own (read (headers rc)) ∪ stored_headers this)
    ∧ (credentials rc ≠ Missing →
         RequestInit.credentials init = read (credentials rc))
    ∧ (mode rc ≠ Missing → RequestInit.mode init = read (mode rc))
    ∧ (cache rc ≠ Missing → RequestInit.cache init = read (cache rc))
    ∧ (∀ ms, timeout rc = Is ms → ms ≠ 0 →
         timeouts t = [ms]
         ∧ aborts_after (RequestInit.signal init) = Some (timer_fires_after ms))
    ∧ (timeout rc = Is 0 ∨ timeout rc = Undefined →
         timeouts t = [] ∧ aborts_after (RequestInit.signal init) = None).
Proof.
  intros ->%call_trace.
  exists (issued_input this (Some rc)), (issued_init this q v (Some rc)).
  split; [apply request_fetches|].
  cbn [issued_init RequestInit.headers RequestInit.credentials
       RequestInit.mode RequestInit.cache RequestInit.signal aborts_after].
  unfold issued_input, sent_headers, stored_headers.
  rewrite request_timeouts. unfold countdown.
  cbn [spread_config base url headers credentials mode cache defaultHeaders
       timeout].
  split; [by destruct (url rc)|].
  split; [intros Hh; assert (spread (headers (config this)) (headers rc)
                             = headers rc) as -> by (by destruct (headers rc));
          split; [done|intros k x Hk; by apply lookup_union_Some_l]|].
  split; [intros Hh ->; by destruct (headers rc)|].
  split; [by destruct (credentials rc)|].
  split; [by destruct (mode rc)|].
  split; [by destruct (cache rc)|].
  split.
  - intros ms -> Hms. cbn [spread read].
    by destruct (Z.eqb_spec ms 0).
  - by intros [-> | ->].
Qed.

End Overrides.

(** * The properties at work *)

(** ** Headers and overrides *)

(** C2, as stated, fails: a client built with a [headers] option of its own
    loses that mapping as a whole once a call passes [headers]; the key
    [Authorization], present only on the client, is not sent. *)
Lemma client_headers_replaced_wholesale :
  headers (config Sample.with_token) = Is {["Authorization" := "Bearer client"]}
  ∧ ∃ input init,
      fetches (trace (request (platform := Sample.serving_data)
                        Sample.get_user Sample.id_123
                        (Some (declared (Sample.override (Is {["X-Custom" := "1"]}))))
                        Sample.with_token))
      = [(input, init)]
      ∧ RequestInit.headers init !! "Authorization" = None
      ∧ RequestInit.headers init !! "X-Custom" = Some "1"
      ∧ RequestInit.headers init !! "Content-Type" = Some "application/json".
Proof.
  split; [reflexivity|].
  eexists _, _. split; [apply request_fetches|].
  by vm_compute.
Qed.

Lemma stored_defaults_merge_with_override_witness :
  ∃ input init,
    fetches (trace (query (platform := Sample.serving_data)
                      Sample.get_user Sample.id_123
                      (Some (declared
                               (Sample.override
                                  (Is {["Content-Type" := "text/plain"; "X-Custom" := "1"]}))))
                      Sample.plain))
    = [(input, init)]
    ∧ RequestInit.headers init !! "Content-Type" = Some "text/plain"
    ∧ RequestInit.credentials init = Some include
    ∧ RequestInit.cache init = None.
Proof.
  destruct (stored_defaults_merge_with_override
              (platform := Sample.serving_data)
              Sample.get_user Sample.id_123
              (declared
                 (Sample.override (Is {["Content-Type" := "text/plain"; "X-Custom" := "1"]})))
              Sample.plain _ (or_intror (or_introl eq_refl)))
    as (input & init & Hfetch & Hheaders & _ & _ & Hcred & _ & Hcache).
  exists input, init. split; [exact Hfetch|].
  destruct (Hheaders _ eq_refl) as (_ & Hkey & _).
  split; [apply Hkey; by vm_compute|].
  split; [apply (proj1 Hcred); by cbn|apply (proj1 Hcache); by cbn].
Defined.

(** A client with a timeout of 100, called with an override that has all
    the keys, a timeout of 50 among them. *)
Lemma override_fields_in_effect_witness :
  ∃ input init,
    fetches (trace (mutation (platform := Sample.serving_data)
                      Sample.get_user Sample.id_123
                      (Some {| base := {| url := Is "https://other.example.com/graphql";
                                          headers := Is {["X-Custom" := "1"]};
                                          credentials := Is omit; mode := Is cors;
                                          cache := Is no_store |};
                               defaultHeaders := Missing;
                               timeout := Is 50 |})
                      (Sample.timed 100)))
    = [(input, init)]
    ∧ input = Some "https://other.example.com/graphql"
    ∧ RequestInit.headers init
      = {["X-Custom" := "1"]} ∪ stored_headers (Sample.timed 100)
    ∧ RequestInit.credentials init = Some omit
    ∧ RequestInit.mode init = Some cors
    ∧ RequestInit.cache init = Some no_store
    ∧ timeouts (trace (mutation (platform := Sample.serving_data)
                         Sample.get_user Sample.id_123
                         (Some {| base := {| url := Is "https://other.example.com/graphql";
                                             headers := Is {["X-Custom" := "1"]};
                                             credentials := Is omit; mode := Is cors;
                                             cache := Is no_store |};
                                  defaultHeaders := Missing;
                                  timeout := Is 50 |})
                         (Sample.timed 100)))
      = [50]
    ∧ aborts_after (RequestInit.signal init) = Some 50.
Proof.
  destruct (override_fields_in_effect
              (platform := Sample.serving_data)
              Sample.get_user Sample.id_123
              {| base := {| url := Is "https://other.example.com/graphql";
                            headers := Is {["X-Custom" := "1"]};
                            credentials := Is omit; mode := Is cors;
                            cache := Is no_store |};
                 defaultHeaders := Missing;
                 timeout := Is 50 |}
              (Sample.timed 100) _ (or_intror (or_intror eq_refl)))
    as (input & init & Hfetch & Hurl & _ & Hheaders & Hcred & Hmode & Hcache
        & Htimer & _).
  exists input, init.
  split; [exact Hfetch|]. split; [apply Hurl; discriminate|].
  split; [apply Hheaders; [discriminate|reflexivity]|].
  split; [apply Hcred; discriminate|]. split; [apply Hmode; discriminate|].
  split; [apply Hcache; discriminate|].
  apply (Htimer 50 eq_refl). discriminate.
Defined.

(** ** The stored mapping *)

Lemma content_type_always_stored_witness :
  stored_headers
    (createClient (Sample.options Missing (Is {["Content-Type" := "text/plain"]}) Missing))
  !! "Content-Type" = Some "text/plain".
Proof.
  apply (proj1 (proj2 (proj2
           (content_type_always_stored
              (platform := Sample.serving_data)
              (Sample.options Missing (Is {["Content-Type" := "text/plain"]}) Missing)
              [])))).
  by vm_compute.
Defined.

Lemma header_updates_merge_by_key_witness :
  stored_headers
    (this_after (setHeaders {["Authorization" := "Bearer token"]} Sample.plain))
  !! "Content-Type" = Some "application/json"
  ∧ ∃ input init,
      fetches (trace (query (platform := Sample.serving_data)
                        Sample.get_user Sample.id_123 None
                        (this_after (setHeader "Authorization" "Bearer new"
                           (this_after (setHeader "Authorization" "Bearer old"
                                          Sample.plain))))))
      = [(input, init)]
      ∧ RequestInit.headers init !! "Authorization" = Some "Bearer new".
Proof.
  destruct (header_updates_merge_by_key
              (platform := Sample.serving_data)
              "Authorization" "Bearer old" "Bearer new"
              {["Authorization" := "Bearer token"]} Sample.plain
              Sample.get_user Sample.id_123 None)
    as (_ & _ & _ & Hkept & _ & Hnext).
  split.
  - rewrite Hkept; by vm_compute.
  - destruct (Hnext eq_refl _ (or_introl eq_refl) _ (or_intror (or_introl eq_refl)))
      as (input & init & Hfetch & _ & Hstored & _).
    exists input, init. split; [exact Hfetch|].
    rewrite Hstored; by vm_compute.
Defined.

(** C8, as stated, fails: the updated mapping is not what every later call
    sends. On a client built with [Authorization] under its [headers]
    option, the value [setHeader] stores for that key is never sent; and a
    call whose override brings [defaultHeaders] of its own sends none of
    the stored mapping. *)
Lemma stored_update_not_sent :
  stored_headers
    (this_after (setHeader "Authorization" "Bearer new" Sample.with_token))
  !! "Authorization" = Some "Bearer new"
  ∧ (∃ input init,
       fetches (trace (request (platform := Sample.serving_data)
                         Sample.get_user Sample.id_123 None
                         (this_after (setHeader "Authorization" "Bearer new"
                                        Sample.with_token))))
       = [(input, init)]
       ∧ RequestInit.headers init !! "Authorization" = Some "Bearer client")
  ∧ stored_headers
      (this_after (setHeader "Authorization" "Bearer new" Sample.plain))
    !! "Authorization" = Some "Bearer new"
  ∧ (∃ input init,
       fetches (trace (request (platform := Sample.serving_data)
                         Sample.get_user Sample.id_123
                         (Some {| base := Sample.override Missing;
                                  defaultHeaders := Is {["X-Custom" := "1"]};
                                  timeout := Missing |})
                         (this_after (setHeader "Authorization" "Bearer new"
                                        Sample.plain))))
       = [(input, init)]
       ∧ RequestInit.headers init !! "Authorization" = None
       ∧ RequestInit.headers init !! "X-Custom" = Some "1").
Proof.
  split; [by vm_compute|]. split.
  - eexists _, _. split; [apply request_fetches|]. by vm_compute.
  - split; [by vm_compute|].
    eexists _, _. split; [apply request_fetches|]. by vm_compute.
Qed.

(** ** Outcomes *)

(** C3, as stated, fails: a body whose [errors] list is present but empty
    makes [query] fail, with the empty message, although [request] returns
    that body and the data is there. *)
Lemma empty_errors_list_fails :
  errors Sample.body_no_errors = Some []
  ∧ outcome (request (platform := Sample.serving_no_errors)
               Sample.get_user Sample.id_123 None Sample.plain)
    = Fulfilled Sample.body_no_errors
  ∧ outcome (query (platform := Sample.serving_no_errors)
               Sample.get_user Sample.id_123 None Sample.plain)
    = Rejected (ThrownError {| JsError.name := "Error"; JsError.message := "" |}).
Proof. by vm_compute. Qed.

Lemma query_fails_on_errors_list_witness :
  outcome (request (platform := Sample.serving_errors)
             Sample.get_user Sample.id_123 None Sample.plain)
  = Fulfilled Sample.body_errors
  ∧ outcome (query (platform := Sample.serving_errors)
               Sample.get_user Sample.id_123 None Sample.plain)
    = Rejected (ThrownError {| JsError.name := "Error";
                               JsError.message := "User not found, Forbidden" |}).
Proof.
  destruct (query_fails_on_errors_list
              (platform := Sample.serving_errors)
              Sample.get_user Sample.id_123 None Sample.plain
              (Sample.received 10 None
                 (Sample.http 200 (Fulfilled Sample.body_errors)))
              Sample.body_errors
              eq_refl eq_refl eq_refl)
    as (Hrequest & Hquery & _).
  split; [exact Hrequest|exact Hquery].
Defined.

(** The example of the test suite: the data of a body without errors. *)
Example query_resolves_to_data :
  outcome (query (platform := Sample.serving_data)
             Sample.get_user Sample.id_123 None Sample.plain)
  = Fulfilled (Some Sample.user).
Proof. by vm_compute. Qed.

Lemma http_failure_is_raised_witness :
  outcome (query (platform := Sample.serving_404)
             Sample.get_user Sample.id_123 None Sample.plain)
  = Rejected (ThrownError
      {| JsError.name := "Error";
         JsError.message := "GraphQL request failed: HTTP error! status: 404" |})
  ∧ Json ∉ trace (request (platform := Sample.serving_404)
                    Sample.get_user Sample.id_123 None Sample.plain).
Proof.
  destruct (http_failure_is_raised
              (platform := Sample.serving_404)
              Sample.get_user Sample.id_123 None Sample.plain
              (Sample.received 10 None
                 (Sample.http 404 (Fulfilled Sample.body_data)))
              eq_refl eq_refl)
    as (_ & Hquery & _ & Hjson & _).
  split; [exact Hquery|exact Hjson].
Defined.

(** C5, as stated, fails. A configured timeout of 0 starts no countdown:
    the slow call is left to finish and its data is returned. And with a
    timeout of 100 and a call taking 200, a transport that ignores its
    signal, as a mocked [fetch] does, gets aborted to no effect: the data
    is returned as well. *)
Lemma slow_call_can_succeed :
  timeout (config (Sample.timed 0)) = Is 0
  ∧ outcome (query (platform := Sample.slow)
               Sample.get_user Sample.id_123 None (Sample.timed 0))
    = Fulfilled (Some Sample.user)
  ∧ trace (query (platform := Sample.slow_deaf)
             Sample.get_user Sample.id_123 None (Sample.timed 100))
    !! 2%nat = Some Abort
  ∧ outcome (query (platform := Sample.slow_deaf)
               Sample.get_user Sample.id_123 None (Sample.timed 100))
    = Fulfilled (Some Sample.user).
Proof. by vm_compute. Qed.

Lemma timeout_aborts_pending_call_witness :
  Abort ∈ trace (request (platform := Sample.slow)
                   Sample.get_user Sample.id_123 None (Sample.timed 100))
  ∧ outcome (query (platform := Sample.slow)
               Sample.get_user Sample.id_123 None (Sample.timed 100))
    = Rejected (ThrownError
        {| JsError.name := "Error";
           JsError.message := "GraphQL request failed: The operation was aborted." |}).
Proof.
  destruct (timeout_aborts_pending_call
              (platform := Sample.slow)
              Sample.get_user Sample.id_123 None (Sample.timed 100) 100
              eq_refl ltac:(discriminate))
    as (_ & _ & Hpending & _).
  destruct Hpending as (Habort & Herror & _); [by apply Z.leb_le|].
  split; [exact Habort|].
  exact (proj1 (proj2 (Herror {| JsError.name := "AbortError";
                                 JsError.message := "The operation was aborted." |}
                              eq_refl))).
Defined.

(** The timer at work past the [fetch]: the response comes in after 10
    time units, the body would take 200 more, the timeout is 100. *)
Example body_read_is_aborted :
  trace (query (platform := Sample.slow_body)
           Sample.get_user Sample.id_123 None (Sample.timed 100))
  !! 3%nat = Some Abort
  ∧ outcome (query (platform := Sample.slow_body)
               Sample.get_user Sample.id_123 None (Sample.timed 100))
    = Rejected (ThrownError
        {| JsError.name := "Error";
           JsError.message := "GraphQL request failed: The operation was aborted." |}).
Proof. by vm_compute. Qed.

(** A timer due at the very time the [fetch] would settle fires first: it
    was set before. *)
Example tie_goes_to_the_timer :
  outcome (query (platform := Sample.slow)
             Sample.get_user Sample.id_123 None (Sample.timed 200))
  = Rejected (ThrownError
      {| JsError.name := "Error";
         JsError.message := "GraphQL request failed: The operation was aborted." |}).
Proof. by vm_compute. Qed.

(** C6, as stated, fails: a transport rejecting with a value that is not an
    [Error] instance, here a string, has that value raised again as it is,
    with no prefix and no [Error] around it. *)
Lemma non_error_rethrown_unchanged :
  outcome (request (platform := Sample.rejecting_string)
             Sample.get_user Sample.id_123 None Sample.plain)
  = Rejected (ThrownOther (VString "boom")).
Proof. by vm_compute. Qed.

Lemma failures_are_rethrown_witness :
  outcome (request (platform := Sample.offline)
             Sample.get_user Sample.id_123 None Sample.plain)
  = Rejected (ThrownError
      {| JsError.name := "Error";
         JsError.message := "GraphQL request failed: Network error" |}).
Proof.
  apply (proj1 (failures_are_rethrown
                  (platform := Sample.offline)
                  Sample.get_user Sample.id_123 None Sample.plain)
               {| JsError.name := "TypeError"; JsError.message := "Network error" |}).
  reflexivity.
Defined.

(** * Further properties of the client *)

Section Client.

Context {platform : Platform}.

(** ** Variables that are not a mapping *)

Lemma truthy_false_iff v :
  truthy v = false
  ↔ v ∈ [VUndefined; VNull; VBool false; VNumber 0; VString ""].
Proof.
  rewrite !elem_of_cons, elem_of_nil. split.
  - destruct v as [| |[]|n|s| |]; cbn; try discriminate; auto.
    + intros Hn%negb_false_iff%Z.eqb_eq. subst. auto 10.
    + intros Hs%negb_false_iff%String.eqb_eq. subst. auto 10.
  - intros [->|[->|[->|[->|[->|[]]]]]]; reflexivity.
Qed.

(** X1. [variables || {}] looks at truthiness only: [undefined], [null],
    [false], [0] and the empty string are sent as the empty mapping; a
    truthy value is sent as it is, mapping or not. *)
Theorem falsy_variables_become_empty_mapping
    (q : string) (v : value) (rc : option GraphQLClientOptions)
    (this : GraphQLLite) :
  (v ∈ [VUndefined; VNull; VBool false; VNumber 0; VString ""] →
   one_post (trace (request q v rc this))
     (JSON_stringify (VObject [("query", VString q); ("variables", VObject [])])))
  ∧ (truthy v = true →
     one_post (trace (request q v rc this))
       (JSON_stringify (VObject [("query", VString q); ("variables", v)]))).
Proof.
  assert (one_post (trace (request q v rc this))
            (JSON_stringify (request_body q v))) as Hone.
  { exists (issued_input this rc), (issued_init this q v rc).
    split; [apply request_fetches|]. by split. }
  unfold request_body, or_else in Hone.
  split; intros Hin; [rewrite <- truthy_false_iff in Hin|];
    by rewrite Hin in Hone.
Qed.

(** ** Overrides without keys *)

Lemma spread_config_empty c :
  spread_config c (Some {| base := {| url := Missing; headers := Missing;
                                      credentials := Missing; mode := Missing;
                                      cache := Missing |};
                           defaultHeaders := Missing; timeout := Missing |})
  = c.
Proof. by destruct c as [[]]. Qed.

(** X2. An override object without any key is the same as no override:
    the whole run of the call, outcome and platform calls, is the same. *)
Theorem empty_override_is_no_override
    (q : string) (v : value) (this : GraphQLLite) :
  let empty := {| base := {| url := Missing; headers := Missing;
                             credentials := Missing; mode := Missing;
                             cache := Missing |};
                  defaultHeaders := Missing; timeout := Missing |} in
  request q v (Some empty) this = request q v None this
  ∧ query q v (Some empty) this = query q v None this
  ∧ mutation q v (Some empty) this = mutation q v None this.
Proof.
  intros empty.
  assert (request q v (Some empty) this = request q v None this) as Hreq.
  { rewrite !request_run.
    unfold transport_outcome, issued_exchange, issued_init, issued_input,
      sent_headers.
    by rewrite spread_config_empty. }
  unfold mutation. rewrite !query_run, Hreq.
  unfold transport_outcome, issued_init, issued_input, sent_headers.
  by rewrite spread_config_empty.
Qed.

(** ** The timer *)

(** X3. The countdown of a call is started before anything else and cleared
    after everything else, however the call ends; a call whose timeout in
    effect (the override's when it brings one, the client's otherwise) is
    not truthy starts, fires and clears no timer at all. *)
Theorem timer_set_first_cleared_last
    (q : string) (v : value) (rc : option GraphQLClientOptions)
    (this : GraphQLLite) :
  match countdown (spread_config (config this) rc) with
  | Some ms =>
      ∃ middle,
        trace (request q v rc this) = SetTimeout ms :: middle ++ [ClearTimeout]
        ∧ timeouts middle = []
        ∧ (ClearTimeout ∉ middle)
  | None =>
      timeouts (trace (request q v rc this)) = []
      ∧ (ClearTimeout ∉ trace (request q v rc this))
      ∧ (Abort ∉ trace (request q v rc this))
  end.
Proof.
  pose proof (request_abort q v rc this) as Habort.
  pose proof (fired_issued q v rc this) as Hfired.
  pose proof (cut_short_unarmed q v rc this) as Hcut.
  rewrite request_run in *. cbn [trace] in *. unfold request_trace in *.
  destruct (countdown (spread_config (config this) rc)) as [ms|];
    cbn [from_option] in *.
  - exists (Fetch (issued_input this rc) (issued_init this q v rc)
            :: (if fired (RequestInit.signal (issued_init this q v rc))
                     (issued_exchange this q v rc)
                then [Abort] else [])
            ++ match transport_outcome this q v rc with
               | Fulfilled response =>
                   if ok response
                   then Json :: (if cut_short response then [Abort] else [])
                   else []
               | Rejected _ => []
               end).
    destruct (fired _ _), (transport_outcome _ _ _ _) as [response|];
      [destruct (ok response), (cut_short response)| |
       destruct (ok response), (cut_short response)|];
      cbn; rewrite ?elem_of_cons, ?elem_of_nil; intuition discriminate.
  - split; [|split].
    + destruct (fired _ _), (transport_outcome _ _ _ _) as [response|];
        [destruct (ok response), (cut_short response)| |
         destruct (ok response), (cut_short response)|];
        reflexivity.
    + destruct (fired _ _), (transport_outcome _ _ _ _) as [response|];
        [destruct (ok response), (cut_short response)| |
         destruct (ok response), (cut_short response)|];
        cbn; rewrite ?elem_of_cons, ?elem_of_nil; intuition discriminate.
    + rewrite Habort, Hfired. intros [(ms & [=] & _)|(response & HT & _ & Hc)].
      rewrite (Hcut response HT eq_refl) in Hc. discriminate.
Qed.

(** The awaited [fetch] of a call whose timer did not fire on it. *)
Lemma transport_outcome_unfired q v rc this :
  fired (RequestInit.signal (issued_init this q v rc))
        (issued_exchange this q v rc) = false →
  transport_outcome this q v rc
  = match settle_with (issued_exchange this q v rc) with
    | Fulfilled answer =>
        Fulfilled {| reply := answer;
                     signal := RequestInit.signal (issued_init this q v rc);
                     received_after := settle_after (issued_exchange this q v rc) |}
    | Rejected e => Rejected e
    end.
Proof. intros Hf. rewrite transport_outcome_eq. cbv zeta. by rewrite Hf. Qed.

(** X4. The call is aborted exactly when a truthy timeout is in effect and
    its timer fires either no later than the [fetch] settles, or after a
    response with a success status has come in and no later than the read
    of its body settles. *)
Theorem aborted_iff_timer_elapsed
    (q : string) (v : value) (rc : option GraphQLClientOptions)
    (this : GraphQLLite) :
  let x := issued_exchange this q v rc in
  Abort ∈ trace (request q v rc this)
  ↔ ∃ ms, read (timeout (spread_config (config this) rc)) = Some ms
           ∧ ms ≠ 0
           ∧ (timer_fires_after ms ≤ settle_after x
              ∨ ∃ answer,
                  settle_with x = Fulfilled answer
                  ∧ Reply.ok answer = true
                  ∧ settle_after x < timer_fires_after ms
                  ∧ timer_fires_after ms
                    ≤ settle_after x + settle_after (Reply.body answer)).
Proof.
  intros x. rewrite request_abort. split.
  - intros [Hf|(response & HT & Hok & Hcut)].
    + apply fired_issued in Hf as (ms & [Ht Hms]%countdown_Some & Hle).
      exists ms. eauto.
    + destruct (countdown (spread_config (config this) rc)) as [ms|] eqn:Hcd;
        [|by rewrite (cut_short_unarmed q v rc this response HT Hcd) in Hcut].
      pose proof (proj1 (cut_short_response q v rc this response ms HT Hcd)
                    Hcut) as [Hlt Hle].
      pose proof Hcd as [Ht Hms]%countdown_Some.
      exists ms. split; [done|]. split; [done|].
      destruct (fired (RequestInit.signal (issued_init this q v rc)) x)
        eqn:Hf.
      * apply fired_issued in Hf as (ms' & Hcd' & Hle').
        left. assert (ms' = ms) as -> by congruence. exact Hle'.
      * right. rewrite (transport_outcome_unfired q v rc this Hf) in HT.
        fold x in HT. destruct (settle_with x) as [answer|]; [|done].
        injection HT as <-. by exists answer.
  - intros (ms & Ht & Hms & [Hle|(answer & Hx & Hok & Hlt & Hle)]).
    + left. apply fired_issued. exists ms. by rewrite countdown_Some.
    + assert (countdown (spread_config (config this) rc) = Some ms) as Hcd
        by by apply countdown_Some.
      assert (fired (RequestInit.signal (issued_init this q v rc)) x = false)
        as Hf.
      { apply not_true_is_false. intros (ms' & Hcd' & Hle')%fired_issued.
        fold x in Hle'. assert (ms' = ms) as -> by congruence. lia. }
      right.
      pose proof (transport_outcome_unfired q v rc this Hf) as HT.
      fold x in HT. rewrite Hx in HT.
      eexists. split; [exact HT|]. split; [exact Hok|].
      by apply (cut_short_response q v rc this _ ms HT Hcd).
Qed.

(** X5. With variables that [JSON.stringify] serializes, the outcome of
    [request] is the one the exchange and the body read settle with by
    themselves, read through the status check and the [catch] clause,
    unless the call was aborted and the transport answered the abort by
    rejecting, on the pending [fetch] or on the pending body read, in which
    case that rejection is what is raised again. *)
Theorem outcome_is_the_transports
    (q : string) (v : value) (rc : option GraphQLClientOptions)
    (this : GraphQLLite) :
  let x := issued_exchange this q v rc in
  outcome (request q v rc this) = undisturbed_outcome x
  ∨ ∃ e,
      Abort ∈ trace (request q v rc this)
      ∧ (on_abort x = Some e
         ∨ ∃ answer, settle_with x = Fulfilled answer
                     ∧ Reply.ok answer = true
                     ∧ on_abort (Reply.body answer) = Some e)
      ∧ outcome (request q v rc this) = Rejected (rethrown e).
Proof.
  intros x. pose proof (request_abort q v rc this) as Habort.
  rewrite request_outcome_eq.
  destruct (fired (RequestInit.signal (issued_init this q v rc)) x) eqn:Hf.
  - rewrite transport_outcome_eq. cbv zeta. fold x. rewrite Hf.
    destruct (on_abort x) as [e|] eqn:He.
    + right. exists e. split; [apply Habort; by left|]. by split; [left|].
    + left. unfold undisturbed_outcome.
      destruct (settle_with x) as [answer|e] eqn:Hx; [|done].
      cbn [request_outcome]. unfold ok, status. cbn [reply].
      destruct (Reply.ok answer); [|done].
      unfold json, cut_short. cbn [reply signal received_after].
      unfold fired in Hf.
      destruct (aborts_after (RequestInit.signal (issued_init this q v rc)))
        as [due|]; [|done].
      apply Z.leb_le in Hf.
      destruct (Z.ltb_spec (settle_after x) due); [lia|done].
  - rewrite (transport_outcome_unfired q v rc this Hf). fold x.
    unfold undisturbed_outcome.
    destruct (settle_with x) as [answer|e] eqn:Hx; [|by left].
    cbn [request_outcome]. unfold ok, status. cbn [reply].
    destruct (Reply.ok answer) eqn:Hok; [|by left].
    unfold json at 1. cbn [reply].
    match goal with
    | |- context [cut_short ?r] => destruct (cut_short r) eqn:Hcut
    end; [|by left].
    destruct (on_abort (Reply.body answer)) as [e|] eqn:He; [|by left].
    right. exists e. split.
    + apply Habort. right. eexists. split; [|split; [|exact Hcut]].
      * rewrite (transport_outcome_unfired q v rc this Hf). fold x.
        by rewrite Hx.
      * done.
    + split; [right; by exists answer|].
      unfold json. cbn [reply]. by rewrite Hcut, He.
Qed.

(** ** Header updates *)

(** X6. [setHeader] is [setHeaders] with a one-key mapping; two
    [setHeaders] amount to one with the later mapping merged over the
    earlier; [setHeader] calls on different keys can be swapped; and
    repeating a [setHeaders] changes nothing more. *)
Theorem header_updates_compose
    (key value k1 v1 k2 v2 : string) (h1 h2 : Headers) (this : GraphQLLite) :
  setHeader key value this = setHeaders {[key := value]} this
  ∧ this_after (setHeaders h2 (this_after (setHeaders h1 this)))
    = this_after (setHeaders (h2 ∪ h1) this)
  ∧ this_after (setHeaders h1 (this_after (setHeaders h1 this)))
    = this_after (setHeaders h1 this)
  ∧ (k1 ≠ k2 →
     this_after (setHeader k2 v2 (this_after (setHeader k1 v1 this)))
     = this_after (setHeader k1 v1 (this_after (setHeader k2 v2 this)))).
Proof.
  rewrite !setHeader_run, !setHeaders_run. cbn [this_after].
  unfold stored_headers.
  cbn [config base defaultHeaders timeout read own from_option id].
  split; [|split; [|split]].
  - by rewrite insert_union_singleton_l.
  - by rewrite (assoc_L (∪)).
  - by rewrite (assoc_L (∪)), (idemp_L (∪)).
  - intros Hne. by rewrite insert_insert_ne.
Qed.

(** X7. A key the client was constructed with under [headers] is out of
    reach of [setHeader]: on a call that passes no [headers] of its own, the
    constructor's value is sent, not the one set later. *)
Theorem client_headers_shadow_setHeader
    (key later shadow : string) (h : Headers) (q : string) (v : value)
    (rc : option GraphQLClientOptions) (this : GraphQLLite) :
  headers (config this) = Is h →
  h !! key = Some shadow →
  from_option (λ over : GraphQLClientOptions, headers over) Missing rc = Missing →
  ∃ input init,
    fetches (trace (request q v rc (this_after (setHeader key later this))))
    = [(input, init)]
    ∧ stored_headers (this_after (setHeader key later this)) !! key = Some later
    ∧ RequestInit.headers init !! key = Some shadow.
Proof.
  intros Hh Hkey Hrc. eexists _, _. split; [apply request_fetches|].
  split; [rewrite stored_headers_setHeader; apply lookup_insert_eq|].
  cbn [issued_init RequestInit.headers]. unfold sent_headers.
  apply lookup_union_Some_l.
  assert (headers (spread_config (config (this_after (setHeader key later this))) rc)
          = Is h) as ->; [|done].
  rewrite setHeader_run. cbn [this_after config].
  destruct rc as [rc|]; cbn [spread_config base headers from_option] in *;
    [rewrite Hrc; cbn [spread]|]; exact Hh.
Qed.

(** X8. [query] and [mutation] make no platform call beyond those of
    [request], and a failure of [request] comes out of them as the very
    value [request] raised: no second prefix, no wrapping. *)
Theorem query_adds_nothing_to_a_failure
    (q : string) (v : value) (rc : option GraphQLClientOptions)
    (this : GraphQLLite) :
  trace (query q v rc this) = trace (request q v rc this)
  ∧ trace (mutation q v rc this) = trace (request q v rc this)
  ∧ (∀ e, outcome (request q v rc this) = Rejected e →
          outcome (query q v rc this) = Rejected e
          ∧ outcome (mutation q v rc this) = Rejected e).
Proof.
  unfold mutation. rewrite query_trace. repeat split; auto using query_rejected.
Qed.

End Client.

(** * The template tag *)

Section Template.

Context {language : Language}.

Lemma append_nil_r (s : string) : s +:+ "" = s.
Proof.
  induction s as [|a s IH]; [done|].
  change (String a s +:+ "") with (String a (s +:+ "")). by rewrite IH.
Qed.

Lemma append_assoc (s1 s2 s3 : string) : (s1 +:+ s2) +:+ s3 = s1 +:+ s2 +:+ s3.
Proof.
  induction s1 as [|a s1 IH]; [done|].
  change (String a (s1 +:+ s2) +:+ s3 = String a (s1 +:+ s2 +:+ s3)).
  change (String a ((s1 +:+ s2) +:+ s3) = String a (s1 +:+ s2 +:+ s3)).
  by rewrite IH.
Qed.

(** The reduction from any accumulator and any index is the accumulator
    followed by the tag of what is left. *)
Lemma foldl_gql (values : list value) (strings : list string) :
  ∀ (k : nat) (acc : string),
    foldl (λ result '(i, str), (result +:+ str) +:+ interpolated (values !! i))
          acc (imap (λ i, pair (k + i)%nat) strings)
    = acc +:+ gql strings (drop k values).
Proof.
  unfold gql. revert values.
  induction strings as [|s strings IH]; intros values k acc.
  - cbn. by rewrite append_nil_r.
  - rewrite !imap_cons. cbn [foldl].
    rewrite (imap_ext _ (λ i, pair (S k + i)%nat) strings)
      by (intros; cbn; f_equal; lia).
    rewrite IH.
    rewrite (imap_ext (pair ∘ S) (λ i, pair (1 + i)%nat) strings) by done.
    rewrite (IH (drop k values) 1%nat).
    rewrite drop_drop, lookup_drop, !Nat.add_0_r, Nat.add_1_r.
    cbn [String.append]. by rewrite !append_assoc.
Qed.

Lemma gql_nil values : gql [] values = "".
Proof. reflexivity. Qed.

Lemma gql_cons s strings values :
  gql (s :: strings) values
  = s +:+ interpolated (values !! 0%nat) +:+ gql strings (drop 1 values).
Proof.
  unfold gql at 1. rewrite imap_cons. cbn [foldl].
  rewrite (imap_ext (pair ∘ S) (λ i, pair (1 + i)%nat) strings) by done.
  rewrite foldl_gql. cbn [String.append]. by rewrite append_assoc.
Qed.

(** Only what each value interpolates to matters, and only for the indices
    of the strings. *)
Lemma gql_ext strings :
  ∀ values values',
    (∀ i, (i < length strings)%nat →
          interpolated (values !! i) = interpolated (values' !! i)) →
    gql strings values = gql strings values'.
Proof.
  induction strings as [|s strings IH]; intros values values' Hext; [done|].
  rewrite !gql_cons. rewrite (Hext 0%nat) by (cbn; lia).
  rewrite (IH (drop 1 values) (drop 1 values')); [done|].
  intros i Hi. rewrite !lookup_drop. apply Hext. cbn. lia.
Qed.

(** X9. With strings for values the tag is plain interleaving: each string
    followed by the text at its index, the strings past the texts on their
    own. *)
Theorem gql_interleaves_strings (strings texts : list string) :
  gql strings (VString <$> texts) = weave strings texts.
Proof.
  revert texts. induction strings as [|s strings IH]; intros texts; [done|].
  rewrite gql_cons. destruct texts as [|x texts]; cbn [weave].
  - change (drop 1 (VString <$> [])) with (VString <$> []).
    by rewrite (IH []).
  - rewrite fmap_cons.
    change (drop 1 (VString x :: (VString <$> texts))) with (VString <$> texts).
    rewrite (IH texts). do 2 f_equal.
    cbn. by destruct (String.eqb_spec x "") as [->|].
Qed.

(** X10. A falsy value leaves no text: [0], [false], [null], [undefined]
    interpolate like the empty string. *)
Theorem gql_drops_falsy_values
    (strings : list string) (values : list value) (i : nat) (v : value) :
  values !! i = Some v →
  truthy v = false →
  gql strings values = gql strings (<[i := VString ""]> values).
Proof.
  intros Hi Hv. apply gql_ext. intros j _.
  destruct (decide (i = j)) as [<-|Hne].
  - rewrite list_lookup_insert_eq by (by eapply lookup_lt_Some).
    rewrite Hi. cbn. by rewrite Hv.
  - by rewrite list_lookup_insert_ne.
Qed.

(** X11. The tag of two runs of strings is the tag of the first followed
    by the tag of the second on the values left over, and values past the
    last string are never read. *)
Theorem gql_app (strings1 strings2 : list string) (values : list value) :
  gql (strings1 ++ strings2) values
  = gql strings1 values +:+ gql strings2 (drop (length strings1) values)
  ∧ gql strings1 values = gql strings1 (take (length strings1) values).
Proof.
  split.
  - revert values.
    induction strings1 as [|s strings1 IH]; intros values; [done|].
    cbn [app length]. by rewrite !gql_cons, IH, drop_drop, !append_assoc.
  - apply gql_ext. intros i Hi. by rewrite lookup_take_lt.
Qed.

End Template.

(** * The hooks *)

(** Unfolds the body of a hook down to the client call and the callbacks. *)
Ltac hook_step :=
  cbv beta iota zeta delta
    [execute fetchData Effect.try_finally Effect.try_catch Effect.bind
     Effect.ret Effect.throw Effect.await Effect.call setLoading setError
     setData set_cells invoke mbind mret effect_bind effect_ret
     mounted_with];
  cbn [client cells notices calls outcome this_after trace fst snd
       Hook.data Hook.error Hook.loading].

(** Closes the goals about the cells of a run that has been computed. *)
Ltac settled_cells :=
  repeat split; try done;
  try (by intros [? [=]]); try (by intros ? [=]); try (by intros ? [= <-]);
  try (by simplify_eq).

Section HookRuns.

Context {platform : Platform} {language : Language}.

Lemma mutation_run_eq q v rc this :
  mutation q v rc this
  = Run (outcome (mutation q v rc this)) this (trace (request q v rc this)).
Proof. unfold mutation. by rewrite query_run. Qed.

Lemma query_run_eq q v rc this :
  query q v rc this
  = Run (outcome (query q v rc this)) this (trace (request q v rc this)).
Proof. by rewrite query_run. Qed.

(** X12. A mutation that succeeds, with [onCompleted] missing or returning:
    [execute] resolves to the result, the state holds it with no error and
    [loading] false, [onCompleted] has been called once with it and
    [onError] not at all; one call went to the client, which is as it
    was. *)
Theorem execute_success
    (q : string) (options : option Hook.options) (v : value) (w : world)
    (result : option value) :
  outcome (mutation q v None (client w)) = Fulfilled result →
  returns (options ≫= Hook.onCompleted) →
  execute q options v w
  = (Fulfilled (payload result),
     {| client := client w;
        cells := {| Hook.data := payload result; Hook.error := None;
                    Hook.loading := false |};
        notices := notices w
                   ++ noticed (options ≫= Hook.onCompleted)
                        (Completed (payload result));
        calls := calls w ++ trace (request q v None (client w)) |}).
Proof.
  intros Hm Hret. unfold execute.
  set (done := options ≫= Hook.onCompleted) in *.
  set (failed := options ≫= Hook.onError).
  hook_step. rewrite mutation_run_eq, Hm. hook_step.
  destruct done as [f|]; hook_step.
  - by rewrite (Hret f (payload result) eq_refl).
  - by rewrite app_nil_r.
Qed.

(** X13. A mutation that fails, with [onError] missing or returning:
    [execute] rejects with an [Error], the thrown one or [new
    Error(String(err))] around a value that is none; the state holds that
    error, [data] reset to [null], [loading] false; [onError] has been
    called once with it and [onCompleted] not at all. *)
Theorem execute_failure
    (q : string) (options : option Hook.options) (v : value) (w : world)
    (err : thrown) :
  outcome (mutation q v None (client w)) = Rejected err →
  returns (options ≫= Hook.onError) →
  execute q options v w
  = (Rejected (ThrownError (as_Error err)),
     {| client := client w;
        cells := {| Hook.data := VNull; Hook.error := Some (as_Error err);
                    Hook.loading := false |};
        notices := notices w
                   ++ noticed (options ≫= Hook.onError) (Errored (as_Error err));
        calls := calls w ++ trace (request q v None (client w)) |}).
Proof.
  intros Hm Hret. unfold execute.
  set (done := options ≫= Hook.onCompleted).
  set (failed := options ≫= Hook.onError) in *.
  hook_step. rewrite mutation_run_eq, Hm. hook_step.
  destruct failed as [f|]; hook_step.
  - by rewrite (Hret f (as_Error err) eq_refl).
  - by rewrite app_nil_r.
Qed.

(** X14. An [onCompleted] that throws turns a mutation that succeeded into
    a failure of [execute]: the result is dropped from the state, the
    thrown value is stored and raised as the error, and [onError] is called
    with it after [onCompleted]. *)
Theorem execute_failed_by_onCompleted
    (q : string) (options : option Hook.options) (v : value) (w : world)
    (result : option value) (f : value → settled unit) (err : thrown) :
  outcome (mutation q v None (client w)) = Fulfilled result →
  options ≫= Hook.onCompleted = Some f →
  f (payload result) = Rejected err →
  returns (options ≫= Hook.onError) →
  execute q options v w
  = (Rejected (ThrownError (as_Error err)),
     {| client := client w;
        cells := {| Hook.data := VNull; Hook.error := Some (as_Error err);
                    Hook.loading := false |};
        notices := notices w
                   ++ Completed (payload result)
                      :: noticed (options ≫= Hook.onError)
                           (Errored (as_Error err));
        calls := calls w ++ trace (request q v None (client w)) |}).
Proof.
  intros Hm Hdone Hf Hret. unfold execute.
  set (failed := options ≫= Hook.onError) in *. rewrite Hdone.
  hook_step. rewrite mutation_run_eq, Hm. hook_step. rewrite Hf.
  destruct failed as [g|]; hook_step.
  - rewrite (Hret g (as_Error err) eq_refl). by rewrite <- app_assoc.
  - done.
Qed.

(** X15. However the mutation and the callbacks end, [execute] leaves
    [loading] false, has made the platform calls of one request and no
    other, leaves the client as it was, never leaves an error next to
    data, and resolves only with the state holding its result and no
    error. *)
Theorem execute_settles
    (q : string) (options : option Hook.options) (v : value) (w : world) :
  let after := (execute q options v w).2 in
  Hook.loading (cells after) = false
  ∧ client after = client w
  ∧ calls after = calls w ++ trace (request q v None (client w))
  ∧ (is_Some (Hook.error (cells after)) → Hook.data (cells after) = VNull)
  ∧ (∀ result, (execute q options v w).1 = Fulfilled result →
               Hook.data (cells after) = result
               ∧ Hook.error (cells after) = None).
Proof.
  unfold execute.
  set (done := options ≫= Hook.onCompleted).
  set (failed := options ≫= Hook.onError).
  hook_step. rewrite mutation_run_eq.
  destruct (outcome (mutation q v None (client w))) as [result|err]; hook_step.
  - destruct done as [f|]; hook_step;
      [destruct (f (payload result)) as [[]|err]; hook_step|];
      try (destruct failed as [g|]; hook_step;
           [destruct (g (as_Error err)) as [[]|err']; hook_step|]);
      settled_cells.
  - destruct failed as [g|]; hook_step;
      [destruct (g (as_Error err)) as [[]|err']; hook_step|];
      settled_cells.
Qed.

(** X16. Once the component is unmounted, [fetchData] touches nothing
    when the query comes back: whatever its outcome, the state is as the
    first [setLoading(true)] left it, no callback is called and the promise
    resolves. The request itself has been made all the same. *)
Theorem fetchData_after_unmount
    (q : string) (v : value) (options : option Hook.options) (w : world) :
  fetchData q v options false w
  = (Fulfilled (),
     {| client := client w;
        cells := {| Hook.data := Hook.data (cells w);
                    Hook.error := Hook.error (cells w);
                    Hook.loading := true |};
        notices := notices w;
        calls := calls w ++ trace (request q v None (client w)) |}).
Proof.
  hook_step. rewrite query_run_eq.
  by destruct (outcome (query q v None (client w))).
Qed.

(** X17. While mounted, and with [onError] missing or returning,
    [fetchData] never rejects: a failed query, and an [onCompleted] that
    throws, end in the state (the error stored, [data] reset to [null]),
    a query that succeeds ends there with its data and no error, and
    [loading] is false either way. *)
Theorem fetchData_while_mounted
    (q : string) (v : value) (options : option Hook.options) (w : world) :
  returns (options ≫= Hook.onError) →
  let run := fetchData q v options true w in
  run.1 = Fulfilled ()
  ∧ client run.2 = client w
  ∧ calls run.2 = calls w ++ trace (request q v None (client w))
  ∧ (∀ result,
       outcome (query q v None (client w)) = Fulfilled result →
       returns (options ≫= Hook.onCompleted) →
       cells run.2 = {| Hook.data := payload result; Hook.error := None;
                        Hook.loading := false |})
  ∧ (∀ result f err,
       outcome (query q v None (client w)) = Fulfilled result →
       options ≫= Hook.onCompleted = Some f →
       f (payload result) = Rejected err →
       cells run.2 = {| Hook.data := VNull; Hook.error := Some (as_Error err);
                        Hook.loading := false |})
  ∧ (∀ err,
       outcome (query q v None (client w)) = Rejected err →
       cells run.2 = {| Hook.data := VNull; Hook.error := Some (as_Error err);
                        Hook.loading := false |}).
Proof.
  intros Hret. unfold fetchData.
  set (done := options ≫= Hook.onCompleted) in *.
  set (failed := options ≫= Hook.onError) in *.
  hook_step. rewrite query_run_eq.
  destruct (outcome (query q v None (client w))) as [result|err]; hook_step.
  - destruct done as [f|]; hook_step;
      [destruct (f (payload result)) as [[]|err] eqn:Hf; hook_step|];
      try (destruct failed as [g|]; hook_step;
           [rewrite (Hret g (as_Error err) eq_refl); hook_step|]);
      repeat split; try done; intros; simplify_eq; try done; try congruence;
      match goal with
      | Hdone : returns (Some ?g), Hg : ?g ?x = Rejected _ |- _ =>
          by rewrite (Hdone g x eq_refl) in Hg
      end.
  - destruct failed as [g|]; hook_step;
      [rewrite (Hret g (as_Error err) eq_refl); hook_step|];
      repeat split; try done; intros; by simplify_eq.
Qed.

(** X18. What a hook stores for a transport failure. An [Error] rejection
    of [fetch] is stored under the request-failure prefix, as [request]
    raised it; a rejection with a value that is not an [Error], which
    [request] lets through as it is, is stored as [new Error(String(value))].
    Either way the stored error is an [Error]. *)
Theorem hook_error_of_transport_failure
    (q : string) (v : value) (options : option Hook.options) (w : world) :
  let stored (err : thrown) : option JsError.t :=
    Some match err with
         | ThrownError e =>
             {| JsError.name := "Error";
                JsError.message := "GraphQL request failed: " +:+ JsError.message e |}
         | ThrownOther x =>
             {| JsError.name := "Error"; JsError.message := ToString x |}
         end in
  ∀ err,
    transport_outcome (client w) q v None = Rejected err →
    Hook.error (cells (execute q options v w).2) = stored err
    ∧ Hook.error (cells (fetchData q v options true w).2) = stored err.
Proof.
  intros stored err HT.
  assert (outcome (query q v None (client w)) = Rejected (rethrown err)) as Hq.
  { apply query_rejected. by rewrite request_outcome_eq, HT. }
  assert (Some (as_Error (rethrown err)) = stored err) as <-
    by (by destruct err).
  split.
  - unfold execute. set (failed := options ≫= Hook.onError).
    hook_step. rewrite mutation_run_eq.
    unfold mutation. rewrite Hq. hook_step.
    destruct failed as [g|]; hook_step;
      [destruct (g (as_Error (rethrown err))) as [[]|]|]; done.
  - unfold fetchData. set (failed := options ≫= Hook.onError).
    hook_step. rewrite query_run_eq, Hq. hook_step.
    destruct failed as [g|]; hook_step;
      [destruct (g (as_Error (rethrown err))) as [[]|]|]; done.
Qed.

End HookRuns.

(** * The further properties at work *)

Lemma falsy_variables_become_empty_mapping_witness :
  one_post (trace (request (platform := Sample.serving_data)
                     Sample.get_user (VNumber 0) None Sample.plain))
    (Sample.stringify
       (VObject [("query", VString Sample.get_user); ("variables", VObject [])]))
  ∧ one_post (trace (request (platform := Sample.serving_data)
                       Sample.get_user (VNumber 5) None Sample.plain))
      (Sample.stringify
         (VObject [("query", VString Sample.get_user); ("variables", VNumber 5)])).
Proof.
  split.
  - apply (proj1 (falsy_variables_become_empty_mapping
                    (platform := Sample.serving_data)
                    Sample.get_user (VNumber 0) None Sample.plain)).
    apply truthy_false_iff. reflexivity.
  - apply (proj2 (falsy_variables_become_empty_mapping
                    (platform := Sample.serving_data)
                    Sample.get_user (VNumber 5) None Sample.plain)).
    reflexivity.
Defined.

Lemma aborted_iff_timer_elapsed_witness :
  Abort ∈ trace (request (platform := Sample.slow)
                   Sample.get_user Sample.id_123 None (Sample.timed 100)).
Proof.
  apply (aborted_iff_timer_elapsed (platform := Sample.slow)).
  exists 100. split; [reflexivity|]. split; [discriminate|].
  left. by apply Z.leb_le.
Defined.

Lemma header_updates_compose_witness :
  this_after (setHeader "X-B" "2" (this_after (setHeader "X-A" "1" Sample.plain)))
  = this_after (setHeader "X-A" "1" (this_after (setHeader "X-B" "2" Sample.plain))).
Proof.
  apply (header_updates_compose "X-A" "1" "X-A" "1" "X-B" "2" ∅ ∅ Sample.plain).
  discriminate.
Defined.

Lemma client_headers_shadow_setHeader_witness :
  ∃ input init,
    fetches (trace (request (platform := Sample.serving_data)
                      Sample.get_user Sample.id_123 None
                      (this_after (setHeader "Authorization" "Bearer new"
                                     Sample.with_token))))
    = [(input, init)]
    ∧ stored_headers (this_after (setHeader "Authorization" "Bearer new"
                                    Sample.with_token))
      !! "Authorization" = Some "Bearer new"
    ∧ RequestInit.headers init !! "Authorization" = Some "Bearer client".
Proof.
  apply (client_headers_shadow_setHeader
           (platform := Sample.serving_data)
           "Authorization" "Bearer new" "Bearer client"
           {["Authorization" := "Bearer client"]}
           Sample.get_user Sample.id_123 None Sample.with_token).
  - reflexivity.
  - by vm_compute.
  - reflexivity.
Defined.

Lemma query_adds_nothing_to_a_failure_witness :
  outcome (mutation (platform := Sample.rejecting_string)
             Sample.get_user Sample.id_123 None Sample.plain)
  = Rejected (ThrownOther (VString "boom")).
Proof.
  apply (proj2 (proj2 (query_adds_nothing_to_a_failure
                         (platform := Sample.rejecting_string)
                         Sample.get_user Sample.id_123 None Sample.plain))).
  reflexivity.
Defined.

Lemma gql_drops_falsy_values_witness :
  gql (language := HookSample.language) ["first: "; " after: "; ""]
      [VNumber 0; VString "abc"]
  = gql (language := HookSample.language) ["first: "; " after: "; ""]
        [VString ""; VString "abc"].
Proof.
  apply (gql_drops_falsy_values (language := HookSample.language)
           ["first: "; " after: "; ""] [VNumber 0; VString "abc"] 0 (VNumber 0));
    reflexivity.
Defined.

(** The tag on a query with one interpolated number. *)
Example gql_user_query :
  gql (language := HookSample.language)
      ["query { user(id: "; ") { name } }"] [VNumber 42]
  = "query { user(id: 42) { name } }".
Proof. reflexivity. Qed.

Lemma execute_success_witness :
  execute (platform := Sample.serving_data) (language := HookSample.language)
    HookSample.create_user (Some HookSample.listening) Sample.id_123
    (mounted_with Sample.plain useMutation_state)
  = (Fulfilled Sample.user,
     {| client := Sample.plain;
        cells := {| Hook.data := Sample.user; Hook.error := None;
                    Hook.loading := false |};
        notices := [Completed Sample.user];
        calls := trace (request (platform := Sample.serving_data)
                          HookSample.create_user Sample.id_123 None Sample.plain) |}).
Proof.
  apply (execute_success
           (platform := Sample.serving_data) (language := HookSample.language)
           HookSample.create_user (Some HookSample.listening) Sample.id_123
           (mounted_with Sample.plain useMutation_state) (Some Sample.user)).
  - reflexivity.
  - intros f x [= <-]. reflexivity.
Defined.

Lemma execute_failure_witness :
  execute (platform := Sample.serving_404) (language := HookSample.language)
    HookSample.create_user (Some HookSample.listening) Sample.id_123
    (mounted_with Sample.plain useMutation_state)
  = (Rejected (ThrownError
        (JsError.new "GraphQL request failed: HTTP error! status: 404")),
     {| client := Sample.plain;
        cells := {| Hook.data := VNull;
                    Hook.error :=
                      Some (JsError.new
                              "GraphQL request failed: HTTP error! status: 404");
                    Hook.loading := false |};
        notices := [Errored (JsError.new
                               "GraphQL request failed: HTTP error! status: 404")];
        calls := trace (request (platform := Sample.serving_404)
                          HookSample.create_user Sample.id_123 None Sample.plain) |}).
Proof.
  apply (execute_failure
           (platform := Sample.serving_404) (language := HookSample.language)
           HookSample.create_user (Some HookSample.listening) Sample.id_123
           (mounted_with Sample.plain useMutation_state)
           (ThrownError (JsError.new
                           "GraphQL request failed: HTTP error! status: 404"))).
  - reflexivity.
  - intros f x [= <-]. reflexivity.
Defined.

Lemma execute_failed_by_onCompleted_witness :
  (execute (platform := Sample.serving_data) (language := HookSample.language)
     HookSample.create_user (Some HookSample.choking) Sample.id_123
     (mounted_with Sample.plain useMutation_state)).1
  = Rejected (ThrownError
      {| JsError.name := "TypeError";
         JsError.message := "Cannot read properties of null" |}).
Proof.
  rewrite (execute_failed_by_onCompleted
             (platform := Sample.serving_data) (language := HookSample.language)
             HookSample.create_user (Some HookSample.choking) Sample.id_123
             (mounted_with Sample.plain useMutation_state) (Some Sample.user)
             (λ _, Rejected (ThrownError
                     {| JsError.name := "TypeError";
                        JsError.message := "Cannot read properties of null" |}))
             (ThrownError
                {| JsError.name := "TypeError";
                   JsError.message := "Cannot read properties of null" |})).
  - reflexivity.
  - reflexivity.
  - reflexivity.
  - reflexivity.
  - intros f x [= <-]. reflexivity.
Defined.

Lemma execute_settles_witness :
  Hook.data (cells (execute (platform := Sample.serving_errors)
                      (language := HookSample.language)
                      HookSample.create_user None Sample.id_123
                      (mounted_with Sample.plain
                         {| Hook.data := Sample.user; Hook.error := None;
                            Hook.loading := false |})).2)
  = VNull.
Proof.
  apply (proj1 (proj2 (proj2 (proj2
           (execute_settles
              (platform := Sample.serving_errors) (language := HookSample.language)
              HookSample.create_user None Sample.id_123
              (mounted_with Sample.plain
                 {| Hook.data := Sample.user; Hook.error := None;
                    Hook.loading := false |})))))).
  vm_compute. eexists. reflexivity.
Defined.

Lemma fetchData_while_mounted_witness :
  (fetchData (platform := Sample.serving_errors) (language := HookSample.language)
     Sample.get_user Sample.id_123 (Some HookSample.listening) true
     (mounted_with Sample.plain useQuery_state)).1
  = Fulfilled ()
  ∧ cells (fetchData (platform := Sample.serving_errors)
             (language := HookSample.language)
             Sample.get_user Sample.id_123 (Some HookSample.listening) true
             (mounted_with Sample.plain useQuery_state)).2
    = {| Hook.data := VNull;
         Hook.error := Some (JsError.new "User not found, Forbidden");
         Hook.loading := false |}.
Proof.
  destruct (fetchData_while_mounted
              (platform := Sample.serving_errors) (language := HookSample.language)
              Sample.get_user Sample.id_123 (Some HookSample.listening)
              (mounted_with Sample.plain useQuery_state))
    as (Hout & _ & _ & _ & _ & Hfailed).
  - intros f x [= <-]. reflexivity.
  - split; [exact Hout|].
    apply (Hfailed (ThrownError (JsError.new "User not found, Forbidden"))).
    reflexivity.
Defined.

Lemma hook_error_of_transport_failure_witness :
  Hook.error (cells (execute (platform := Sample.rejecting_string)
                       (language := HookSample.language)
                       HookSample.create_user None Sample.id_123
                       (mounted_with Sample.plain useMutation_state)).2)
  = Some {| JsError.name := "Error"; JsError.message := "boom" |}.
Proof.
  apply (hook_error_of_transport_failure
           (platform := Sample.rejecting_string) (language := HookSample.language)
           HookSample.create_user Sample.id_123 None
           (mounted_with Sample.plain useMutation_state)
           (ThrownOther (VString "boom"))).
  reflexivity.
Defined.

Lemma timer_set_first_cleared_last_witness :
  ∃ middle,
    trace (request (platform := Sample.serving_404)
             Sample.get_user Sample.id_123 None (Sample.timed 100))
    = SetTimeout 100 :: middle ++ [ClearTimeout]
    ∧ timeouts middle = []
    ∧ (ClearTimeout ∉ middle).
Proof.
  exact (timer_set_first_cleared_last
           (platform := Sample.serving_404)
           Sample.get_user Sample.id_123 None (Sample.timed 100)).
Defined.

Lemma outcome_is_the_transports_witness :
  outcome (request (platform := Sample.slow_deaf)
             Sample.get_user Sample.id_123 None (Sample.timed 100))
  = Fulfilled Sample.body_data.
Proof.
  destruct (outcome_is_the_transports
              (platform := Sample.slow_deaf)
              Sample.get_user Sample.id_123 None (Sample.timed 100))
    as [Hown|(e & _ & _ & Hraised)].
  - exact Hown.
  - vm_compute in Hraised. discriminate Hraised.
Defined.
